(** * La Congolaise review service: a shallow embedding of [backend/server.py]

    The service is a FastAPI application in front of two MongoDB collections,
    [reviews] and [status_checks].  The development models

    - the values the handlers manipulate (Python scalars, [datetime], BSON
      documents as finite maps from field names to values),
    - Python strings, by their UTF-8 encoding, and [datetime] values, naive
      or aware, with [datetime.isoformat] / [datetime.fromisoformat],
    - the pydantic request models [ReviewCreate], [StatusCheckCreate] and the
      [SortOrder] enumeration,
    - the collection operations the handlers call ([insert_one], [find] with
      projection, [sort], [to_list], the [$group] aggregation),
    - the five handlers, with the store threaded explicitly and Python
      exceptions as the left summand of a sum type.

    The identifier, the clock reading and the ObjectId of a request are
    supplied by the environment of that request ([env]).  Three behaviours
    of the platform that differ between releases are parameters, and every
    statement holds for all of them: pydantic's lax conversions to [int]
    ([LaxInt]), what [datetime.fromisoformat] reads beyond the format all
    releases share ([IsoExtensions]), and the store's mean of doubles
    ([ServerArith]).  Requests are served one after the other ([run]); the
    handlers' return values are the subject, before FastAPI validates and
    serialises them through [response_model]. *)

From Stdlib Require Import ZArith String Ascii List Lia Sorted.
From Stdlib Require Import Floats.PrimFloat Floats.SpecFloat Floats.FloatOps.
From Stdlib Require Import Numbers.Cyclic.Int63.Uint63.
From stdpp Require Import gmap strings list fin_maps sorting.

Set Warnings "-inexact-float,-register-all".
Local Open Scope Z_scope.

(* ===================================================================== *)
(** ** Comparisons *)
(* ===================================================================== *)

(** Lexicographic combination of two comparison results. *)
Definition lex (c1 c2 : comparison) : comparison :=
  match c1 with Eq => c2 | _ => c1 end.

(** A three-way comparison that behaves like a total preorder. *)
Record cmp_order {A : Type} (cmp : A → A → comparison) : Prop := {
  cmp_antisym : ∀ a b, cmp a b = CompOpp (cmp b a);
  cmp_eq_cong : ∀ a b c, cmp a b = Eq → cmp a c = cmp b c;
  cmp_lt_trans : ∀ a b c, cmp a b = Lt → cmp b c = Lt → cmp a c = Lt
}.

(* ===================================================================== *)
(** ** Strings *)
(* ===================================================================== *)

(** A Python [str] is represented by its UTF-8 encoding: a [string] is the
    sequence of its bytes, and its characters (code points) are told apart
    by their leading bytes.  (A [str] that holds a lone surrogate has no
    encoding and is outside the model.) *)
Module Utf8.

(** A continuation byte, [10xxxxxx]: it belongs to the character the
    last leading byte began. *)
Definition is_continuation (c : ascii) : bool :=
  let n := N_of_ascii c in (128 <=? n)%N && (n <? 192)%N.

(** The number of bytes that begin a character. *)
Fixpoint leading_bytes (s : string) : nat :=
  match s with
  | EmptyString => 0%nat
  | String c s' =>
      if is_continuation c then leading_bytes s' else S (leading_bytes s')
  end.

(** [len(s)]: the number of characters.  The first byte of a string
    begins a character, and so does every later byte that is not a
    continuation byte. *)
Definition len (s : string) : nat :=
  match s with
  | EmptyString => 0%nat
  | String _ s' => S (leading_bytes s')
  end.

(** The rest of the character begun, and the [n] characters after it. *)
Fixpoint take_rest (n : nat) (s : string) : string :=
  match s with
  | EmptyString => EmptyString
  | String c s' =>
      if is_continuation c then String c (take_rest n s')
      else
        match n with
        | O => EmptyString
        | S n' => String c (take_rest n' s')
        end
  end.

(** [s[:n]]: the first [n] characters. *)
Definition take_chars (n : nat) (s : string) : string :=
  match n, s with
  | S n', String c s' => String c (take_rest n' s')
  | _, _ => EmptyString
  end.

(** The number of bytes of the character a leading byte begins. *)
Definition width (c : ascii) : nat :=
  let n := N_of_ascii c in
  if (n <? 128)%N then 1%nat
  else if (240 <=? n)%N then 4%nat
  else if (224 <=? n)%N then 3%nat
  else 2%nat.

(** The string without its first [n] bytes, when it has that many. *)
Fixpoint drop_bytes (n : nat) (s : string) : option string :=
  match n, s with
  | O, _ => Some s
  | S n', String _ s' => drop_bytes n' s'
  | S _, EmptyString => None
  end.

(** The string without its first character. *)
Definition skip_char (s : string) : option string :=
  match s with
  | String c _ => drop_bytes (width c) s
  | EmptyString => None
  end.

End Utf8.

(* ===================================================================== *)
(** ** Fixed-width decimal fields *)
(* ===================================================================== *)

Module Digits.

(** The character of a decimal digit [0 <= d <= 9]. *)
Definition digit_char (d : Z) : ascii := ascii_of_N (48 + Z.to_N d).

(** The value of a character when it is a decimal digit. *)
Definition digit_val (c : ascii) : option Z :=
  let n := Z.of_N (N_of_ascii c) in
  if (48 <=? n) && (n <=? 57) then Some (n - 48) else None.

(** ["%0wd" % n] for [0 <= n < 10^w]: exactly [w] digits, most
    significant first. *)
Fixpoint zfill (w : nat) (n : Z) : string :=
  match w with
  | O => EmptyString
  | S w' => String (digit_char (n / 10 ^ Z.of_nat w'))
                   (zfill w' (n mod 10 ^ Z.of_nat w'))
  end.

(** Reads exactly [w] digits, accumulating their value; returns the value
    and the rest of the string ([parse_digits] of CPython's
    [_datetimemodule.c]). *)
Fixpoint parse_digits (w : nat) (s : string) (acc : Z) : option (Z * string) :=
  match w with
  | O => Some (acc, s)
  | S w' =>
      match s with
      | String c s' =>
          match digit_val c with
          | Some d => parse_digits w' s' (acc * 10 + d)
          | None => None
          end
      | EmptyString => None
      end
  end.

(** Consumes one given character. *)
Definition expect (c : ascii) (s : string) : option string :=
  match s with
  | String c' s' => if Ascii.eqb c c' then Some s' else None
  | EmptyString => None
  end.

End Digits.

(* ===================================================================== *)
(** ** [datetime] *)
(* ===================================================================== *)

(** A [datetime]: the calendar fields and the offset of its [tzinfo] from
    UTC in microseconds, [None] for a naive datetime.
    [datetime.now(timezone.utc)] returns an aware one of offset [0]. *)
Record datetime := mk_datetime {
  year : Z; month : Z; day : Z;
  hour : Z; minute : Z; second : Z; microsecond : Z;
  utcoffset : option Z
}.

(** What [datetime.fromisoformat] does with a string that is not in the
    format every release of Python 3.7 and later reads alike
    ([fromisoformat_common] below): releases before 3.11 raise
    [ValueError] on all of them, later ones read most of ISO 8601.  The
    service is verified for any such behaviour; [None] is [ValueError]. *)
Class IsoExtensions := {
  fromisoformat_extended : string → option datetime
}.

Module Datetime.
Import Digits.

Definition is_leap (y : Z) : bool :=
  ((y mod 4 =? 0) && negb (y mod 100 =? 0)) || (y mod 400 =? 0).

Definition days_in_month (y m : Z) : Z :=
  if m =? 2 then (if is_leap y then 29 else 28)
  else if (m =? 4) || (m =? 6) || (m =? 9) || (m =? 11) then 30
  else 31.

(** The range checks of the [datetime] constructor on the calendar
    fields. *)
Definition fields_ok (d : datetime) : bool :=
  (1 <=? year d) && (year d <=? 9999) &&
  (1 <=? month d) && (month d <=? 12) &&
  (1 <=? day d) && (day d <=? days_in_month (year d) (month d)) &&
  (0 <=? hour d) && (hour d <=? 23) &&
  (0 <=? minute d) && (minute d <=? 59) &&
  (0 <=? second d) && (second d <=? 59) &&
  (0 <=? microsecond d) && (microsecond d <=? 999999).

(** The range check of [timezone]: an offset strictly within one day. *)
Definition offset_ok (off : option Z) : bool :=
  match off with
  | None => true
  | Some o => (-86400000000 <? o) && (o <? 86400000000)
  end.

(** A datetime the constructor accepts. *)
Definition constructible (d : datetime) : bool :=
  fields_ok d && offset_ok (utcoffset d).

(** A value [datetime.now(timezone.utc)] can return: the fields in range,
    aware, at offset [0]. *)
Definition datetime_ok (d : datetime) : bool :=
  fields_ok d &&
  match utcoffset d with
  | Some o => o =? 0
  | None => false
  end.

(** The offset as [isoformat] prints it: nothing for a naive datetime,
    else [+HH:MM], with [:SS] and [.ffffff] when they are not zero. *)
Definition format_offset (off : option Z) : string :=
  match off with
  | None => EmptyString
  | Some o =>
      let a := Z.abs o in
      let hh := a / 3600000000 in
      let mm := (a / 60000000) mod 60 in
      let ss := (a / 1000000) mod 60 in
      let us := a mod 1000000 in
      (if o <? 0 then "-" else "+") +:+ zfill 2 hh +:+ ":" +:+ zfill 2 mm +:+
      (if (ss =? 0) && (us =? 0) then EmptyString
       else ":" +:+ zfill 2 ss +:+
            (if us =? 0 then EmptyString else "." +:+ zfill 6 us))
  end.

(** [d.isoformat()]: [YYYY-MM-DDTHH:MM:SS], then [.ffffff] when the
    microsecond field is not zero, then the offset. *)
Definition isoformat (d : datetime) : string :=
  zfill 4 (year d) +:+ "-" +:+ zfill 2 (month d) +:+ "-" +:+
  zfill 2 (day d) +:+ "T" +:+
  zfill 2 (hour d) +:+ ":" +:+ zfill 2 (minute d) +:+ ":" +:+
  zfill 2 (second d) +:+
  (if microsecond d =? 0 then EmptyString
   else "." +:+ zfill 6 (microsecond d)) +:+
  format_offset (utcoffset d).

(** The fraction after the seconds: six digits, or three (milliseconds). *)
Definition parse_fraction (s : string) : option (Z * string) :=
  match parse_digits 6 s 0 with
  | Some r => Some r
  | None =>
      match parse_digits 3 s 0 with
      | Some (ms, rest) => Some (ms * 1000, rest)
      | None => None
      end
  end.

(** The time of day [HH[:MM[:SS[.fff[fff]]]]] at the head of a string:
    hour, minute, second, microsecond, and what follows. *)
Definition parse_time (s : string) : option (Z * Z * Z * Z * string) :=
  '(hh, s) ← parse_digits 2 s 0;
  match s with
  | String ":" s =>
      '(mi, s) ← parse_digits 2 s 0;
      match s with
      | String ":" s =>
          '(ss, s) ← parse_digits 2 s 0;
          match s with
          | String "." s =>
              '(us, s) ← parse_fraction s;
              Some (hh, mi, ss, us, s)
          | _ => Some (hh, mi, ss, 0, s)
          end
      | _ => Some (hh, mi, 0, 0, s)
      end
  | _ => Some (hh, 0, 0, 0, s)
  end.

(** The end of the string: nothing (naive), or an offset [+HH:MM] or
    [-HH:MM]. *)
Definition parse_offset (s : string) : option (option Z) :=
  match s with
  | EmptyString => Some None
  | String c s =>
      if Ascii.eqb c "+" || Ascii.eqb c "-" then
        '(hh, s) ← parse_digits 2 s 0;
        s ← expect ":" s;
        '(mm, s) ← parse_digits 2 s 0;
        if String.eqb s EmptyString && (hh <=? 23) && (mm <=? 59) then
          Some (Some ((if Ascii.eqb c "-" then -1 else 1)
                      * ((hh * 3600 + mm * 60) * 1000000)))
        else None
      else None
  end.

(** [datetime.fromisoformat(s)] on the strings every release reads alike:
    [YYYY-MM-DD], alone or followed by one separator character, a time
    [HH[:MM[:SS[.fff[fff]]]]] and possibly an offset [+HH:MM] or [-HH:MM],
    all fields within the ranges of the constructor.  [None] says that
    the string is not one of these, not that it is rejected. *)
Definition fromisoformat_common (s : string) : option datetime :=
  '(y, s) ← parse_digits 4 s 0;
  s ← expect "-" s;
  '(mo, s) ← parse_digits 2 s 0;
  s ← expect "-" s;
  '(dd, s) ← parse_digits 2 s 0;
  '(hh, mi, ss, us, off) ←
    match s with
    | EmptyString => Some (0, 0, 0, 0, None)
    | _ =>
        s ← Utf8.skip_char s;
        '(hh, mi, ss, us, s) ← parse_time s;
        off ← parse_offset s;
        Some (hh, mi, ss, us, off)
    end;
  let d := mk_datetime y mo dd hh mi ss us off in
  if constructible d then Some d else None.

(** [datetime.fromisoformat(s)]; [None] is [ValueError]. *)
Definition fromisoformat {iso : IsoExtensions} (s : string)
  : option datetime :=
  match fromisoformat_common s with
  | Some d => Some d
  | None => fromisoformat_extended s
  end.

(** Order of the calendar fields: the chronological order of two
    datetimes of the same offset. *)
Definition compare (a b : datetime) : comparison :=
  lex (year a ?= year b) (lex (month a ?= month b) (lex (day a ?= day b)
  (lex (hour a ?= hour b) (lex (minute a ?= minute b)
  (lex (second a ?= second b) (microsecond a ?= microsecond b)))))).

End Datetime.

(* ===================================================================== *)
(** ** Python values and documents *)
(* ===================================================================== *)

(** The values of the fields of a document: those of Python's built-in
    types that the handlers and a JSON payload produce, and the driver's
    [ObjectId]: [None] (BSON null), [bool], [int] (BSON int32 or int64),
    [float] (BSON double), [str] and [datetime]. *)
Inductive pyval :=
| PNone
| PBool (b : bool)
| PInt (z : Z)
| PFloat (f : float)
| PStr (s : string)
| PDatetime (d : datetime)
| PObjectId (n : N).

(** A document is a Python [dict] keyed by field name. *)
Abbreviation doc := (gmap string pyval).

(** Python exceptions a handler can raise. *)
Inductive exception :=
| ValidationError (loc : list string)   (* the fields that failed *)
| KeyError (key : string)
| ValueError
| TypeError
| AttributeError.

(** The outcome of a computation that may raise. *)
Definition result (A : Type) : Type := (exception + A)%type.

(** A [for] loop whose body may raise: stops at the first exception. *)
Fixpoint for_each {A B : Type} (body : A → result B) (l : list A)
  : result (list B) :=
  match l with
  | [] => inr []
  | x :: l' =>
      match body x with
      | inl e => inl e
      | inr y =>
          match for_each body l' with
          | inl e => inl e
          | inr ys => inr (y :: ys)
          end
      end
  end.

(** The nearest double to an integer ([float(z)]). *)
Definition Z2float (z : Z) : float :=
  SF2Prim (binary_normalize prec emax z 0 false).

(** A BSON number: an integer or a double. *)
Inductive number :=
| NInt (z : Z)
| NDouble (f : float).

(** The mean the server's [$avg] gives for numbers of which at least one
    is a double: the server sums doubles with compensation, in a way that
    is its own.  The service is verified for any such mean. *)
Class ServerArith := {
  avg_with_doubles : list number → float
}.

(* ===================================================================== *)
(** ** The document store *)
(* ===================================================================== *)

Module Mongo.

(** Position of a value's type in the BSON comparison order
    (null < numbers < strings < ObjectId < booleans < dates). *)
Definition bson_rank (v : pyval) : Z :=
  match v with
  | PNone => 2
  | PInt _ | PFloat _ => 3
  | PStr _ => 4
  | PObjectId _ => 8
  | PBool _ => 9
  | PDatetime _ => 10
  end.

(** Exact comparison of an integer with a double; every integer is
    above NaN. *)
Definition compare_Z_double (x : Z) (g : float) : comparison :=
  match Prim2SF g with
  | S754_zero _ => x ?= 0
  | S754_infinity neg => if neg then Gt else Lt
  | S754_nan => Gt
  | S754_finite neg m e =>
      let v := if neg then Z.neg m else Z.pos m in
      if 0 <=? e then x ?= v * 2 ^ e else x * 2 ^ (- e) ?= v
  end.

(** Comparison of two doubles: NaN equals NaN and is below every other
    double, the two zeros are equal. *)
Definition compare_doubles (f g : float) : comparison :=
  match PrimFloat.compare f g with
  | FEq => Eq
  | FLt => Lt
  | FGt => Gt
  | FNotComparable =>
      match PrimFloat.is_nan f, PrimFloat.is_nan g with
      | true, true => Eq
      | true, false => Lt
      | _, _ => Gt
      end
  end.

(** BSON comparison of two values: by type first, then by value; numbers
    compare by their exact values whatever their types, strings by their
    bytes (simple binary collation), dates by their calendar fields (the
    driver reads a stored date as a naive datetime in UTC). *)
Definition bson_compare (a b : pyval) : comparison :=
  lex (bson_rank a ?= bson_rank b)
    match a, b with
    | PInt x, PInt y => x ?= y
    | PInt x, PFloat g => compare_Z_double x g
    | PFloat f, PInt y => CompOpp (compare_Z_double y f)
    | PFloat f, PFloat g => compare_doubles f g
    | PStr s, PStr t => String.compare s t
    | PObjectId x, PObjectId y => (x ?= y)%N
    | PBool x, PBool y => Z.b2z x ?= Z.b2z y
    | PDatetime x, PDatetime y => Datetime.compare x y
    | _, _ => Eq
    end.

(** The sort key of a document for a field: a missing field sorts as
    null. *)
Definition sort_key (d : doc) (k : string) : pyval := default PNone (d !! k).

(** Comparison of two documents under a sort specification
    [[(field, direction); ...]], direction [1] ascending and [-1]
    descending; later fields break the ties of earlier ones. *)
Fixpoint sort_compare (spec : list (string * Z)) (a b : doc) : comparison :=
  match spec with
  | [] => Eq
  | (k, dir) :: rest =>
      let c := bson_compare (sort_key a k) (sort_key b k) in
      lex (if 0 <? dir then c else CompOpp c) (sort_compare rest a b)
  end.

(** Insertion of [x] before the first element that is not smaller. *)
Fixpoint insert_sorted {A : Type} (cmp : A → A → comparison) (x : A)
  (l : list A) : list A :=
  match l with
  | [] => [x]
  | y :: l' =>
      match cmp x y with
      | Gt => y :: insert_sorted cmp x l'
      | _ => x :: l
      end
  end.

(** [cursor.sort(spec)]: the documents in the order of [cmp].  Documents
    that compare equal keep their natural order here; the store leaves
    their order open, and no statement below depends on it. *)
Definition sort_by {A : Type} (cmp : A → A → comparison) (l : list A)
  : list A :=
  foldr (insert_sorted cmp) [] l.

(** [collection.find({}, {"_id": 0})]: every document, in natural
    (insertion) order, without its storage identifier. *)
Definition find_all_no_id (coll : list doc) : list doc :=
  delete "_id" <$> coll.

(** [cursor.to_list(n)]: at most the first [n] documents. *)
Definition to_list (n : nat) (cursor : list doc) : list doc := take n cursor.

(** [collection.insert_one(d)]: the driver adds a fresh [_id] to a
    document that has none, and the document goes to the end of the
    collection. *)
Definition insert_one (oid : N) (d : doc) (coll : list doc) : list doc :=
  coll ++ [match d !! "_id" with
           | Some _ => d
           | None => <["_id" := PObjectId oid]> d
           end].

(** The rating of a document when it is a number: [$avg] ignores a field
    that is missing or holds anything else. *)
Definition rating_number (d : doc) : option number :=
  match d !! "rating" with
  | Some (PInt r) => Some (NInt r)
  | Some (PFloat f) => Some (NDouble f)
  | _ => None
  end.

(** Accumulators of the [$group] stage
    [{_id: None, average_rating: {$avg: "$rating"}, total_reviews: {$sum: 1}}]. *)
Record group_acc := mk_group_acc {
  avg_sum : Z;              (* sum of the integer ratings seen *)
  avg_count : Z;            (* how many ratings were numbers *)
  sum_one : Z;              (* documents seen *)
  avg_seen : list number    (* the numbers seen, in the order they came *)
}.

(** One document through the accumulators: [$avg] takes a rating that is
    a number and skips any other, [$sum: 1] counts every document. *)
Definition group_step (acc : group_acc) (d : doc) : group_acc :=
  match rating_number d with
  | Some (NInt r) =>
      mk_group_acc (avg_sum acc + r) (avg_count acc + 1) (sum_one acc + 1)
        (avg_seen acc ++ [NInt r])
  | Some (NDouble f) =>
      mk_group_acc (avg_sum acc) (avg_count acc + 1) (sum_one acc + 1)
        (avg_seen acc ++ [NDouble f])
  | None =>
      mk_group_acc (avg_sum acc) (avg_count acc) (sum_one acc + 1)
        (avg_seen acc)
  end.

(** A number is a double. *)
Definition is_double (n : number) : bool :=
  match n with NDouble _ => true | NInt _ => false end.

(** A row of the aggregation result; [avg] is null when no rating was
    a number. *)
Record group_row := mk_group_row {
  row_average_rating : option float;
  row_total_reviews : Z
}.

(** [collection.aggregate(pipeline)]: one pass over the collection; a
    single group, hence one row, and no row for an empty collection.  The
    mean of integers is the quotient of their sum by their count, in
    double precision. *)
Definition aggregate_group {srv : ServerArith} (coll : list doc)
  : list group_row :=
  match coll with
  | [] => []
  | _ =>
      let acc := fold_left group_step coll (mk_group_acc 0 0 0 []) in
      [mk_group_row
         (if avg_count acc =? 0 then None
          else if existsb is_double (avg_seen acc)
          then Some (avg_with_doubles (avg_seen acc))
          else Some (PrimFloat.div (Z2float (avg_sum acc))
                                   (Z2float (avg_count acc))))
         (sum_one acc)]
  end.

End Mongo.

(** The database: its two collections, in natural order. *)
Record store := mk_store {
  reviews : list doc;
  status_checks : list doc
}.

Definition empty_store : store := mk_store [] [].

(* ===================================================================== *)
(** ** Python built-ins *)
(* ===================================================================== *)

(** The integer nearest to [n / d] for [d > 0], ties to the even one. *)
Definition round_half_even_div (n d : Z) : Z :=
  let q := n / d in
  let r := n mod d in
  match 2 * r ?= d with
  | Lt => q
  | Gt => q + 1
  | Eq => if Z.even q then q else q + 1
  end.

(** [round(x, 1)] on a float: the exact value of [x] is rounded to one
    decimal, ties to even, and the nearest double of that decimal is
    returned; infinities, NaN, zeros and doubles of magnitude [2^49] or more
    (whose spacing exceeds one tenth) round to themselves. *)
Definition round1 (x : float) : float :=
  match Prim2SF x with
  | S754_finite s m e =>
      if -3 <=? e then x
      else
        let tenths := round_half_even_div (10 * Z.pos m) (2 ^ (- e)) in
        let r := PrimFloat.div (Z2float tenths) (Z2float 10) in
        if s then PrimFloat.opp r else r
  | _ => x
  end.

(* ===================================================================== *)
(** ** Request payloads and pydantic validation *)
(* ===================================================================== *)

(** A parsed JSON request body ([json.loads]). *)
Inductive json :=
| JNull
| JBool (b : bool)
| JInt (z : Z)
| JFloat (f : float)
| JStr (s : string)
| JArr (items : list json)
| JObj (fields : gmap string json).

(** pydantic's lax conversions to [int] from a numeric string and from a
    float without fractional part are the library's; the service is
    verified for any such pair of conversions. *)
Class LaxInt := {
  str_as_int : string → option Z;
  float_as_int : float → option Z
}.

Module Pydantic.

(** An [int] field in lax mode: an integer, a boolean ([True] is [1]), or
    a float or string the library converts. *)
Definition validate_int `{LaxInt} (v : json) : option Z :=
  match v with
  | JInt z => Some z
  | JBool b => Some (Z.b2z b)
  | JFloat f => float_as_int f
  | JStr s => str_as_int s
  | _ => None
  end.

(** A [str] field: only a string is one. *)
Definition validate_str (v : json) : option string :=
  match v with
  | JStr s => Some s
  | _ => None
  end.

(** [Field(min_length=lo, max_length=hi)] on a string: the bounds are on
    its number of characters. *)
Definition length_between (lo hi : nat) (s : string) : bool :=
  (lo <=? Utf8.len s)%nat && (Utf8.len s <=? hi)%nat.

(** [Field(ge=lo, le=hi)] on an integer. *)
Definition in_range (lo hi z : Z) : bool := (lo <=? z) && (z <=? hi).

(** The error list of a failed field, empty for a valid one. *)
Definition field_error {A : Type} (name : string) (v : option A)
  : list string :=
  match v with Some _ => [] | None => [name] end.

End Pydantic.

(** [class SortOrder(str, Enum)]. *)
Inductive SortOrder := DATE_DESC | DATE_ASC | RATING_DESC | RATING_ASC.

Module SortOrderEnum.

Definition value (s : SortOrder) : string :=
  match s with
  | DATE_DESC => "date_desc"
  | DATE_ASC => "date_asc"
  | RATING_DESC => "rating_desc"
  | RATING_ASC => "rating_asc"
  end.

Definition members : list SortOrder :=
  [DATE_DESC; DATE_ASC; RATING_DESC; RATING_ASC].

(** Validation of a query value against the enumeration: the member
    whose value is the given string. *)
Definition of_value (s : string) : option SortOrder :=
  find (λ m, String.eqb (value m) s) members.

End SortOrderEnum.

(** [class Review(BaseModel)]. *)
Module Review.

Record t := mk {
  id : string;
  name : string;
  rating : Z;
  comment : option string;
  created_at : datetime
}.

(** [Review(name=..., rating=..., comment=...)]: the defaults of [id] and
    [created_at] come from [uuid4()] and [datetime.now(timezone.utc)];
    [rating] is checked against [Field(ge=1, le=5)]. *)
Definition init (uuid : string) (now : datetime)
  (name : string) (rating : Z) (comment : option string) : result t :=
  if Pydantic.in_range 1 5 rating
  then inr (mk uuid name rating comment now)
  else inl (ValidationError ["rating"]).

Definition model_dump (r : t) : doc :=
  <["id" := PStr (id r)]>
  (<["name" := PStr (name r)]>
  (<["rating" := PInt (rating r)]>
  (<["comment" := match comment r with Some c => PStr c | None => PNone end]>
  (<["created_at" := PDatetime (created_at r)]> ∅)))).

End Review.

(** [class ReviewCreate(BaseModel)]. *)
Module ReviewCreate.

Record t := mk {
  name : string;
  rating : Z;
  comment : option string
}.

(** [name: str = Field(min_length=1, max_length=100)], required. *)
Definition validate_name (fields : gmap string json) : option string :=
  v ← fields !! "name";
  s ← Pydantic.validate_str v;
  if Pydantic.length_between 1 100 s then Some s else None.

(** [rating: int = Field(ge=1, le=5)], required. *)
Definition validate_rating `{LaxInt} (fields : gmap string json)
  : option Z :=
  v ← fields !! "rating";
  z ← Pydantic.validate_int v;
  if Pydantic.in_range 1 5 z then Some z else None.

(** [comment: Optional[str] = Field(default=None, max_length=500)]. *)
Definition validate_comment (fields : gmap string json)
  : option (option string) :=
  match fields !! "comment" with
  | None => Some None
  | Some JNull => Some None
  | Some v =>
      s ← Pydantic.validate_str v;
      if Pydantic.length_between 0 500 s then Some (Some s) else None
  end.

(** Validation of the request body: every field is checked and the
    failing ones are reported together. *)
Definition model_validate `{LaxInt} (body : json) : result t :=
  match body with
  | JObj fields =>
      let n := validate_name fields in
      let r := validate_rating fields in
      let c := validate_comment fields in
      match n, r, c with
      | Some n, Some r, Some c => inr (mk n r c)
      | _, _, _ =>
          inl (ValidationError
                 (Pydantic.field_error "name" n ++
                  Pydantic.field_error "rating" r ++
                  Pydantic.field_error "comment" c))
      end
  | _ => inl (ValidationError ["body"])
  end.

End ReviewCreate.

(** [class ReviewStats(BaseModel)]. *)
Module ReviewStats.

Record t := mk {
  average_rating : float;
  total_reviews : Z
}.

End ReviewStats.

(** [class StatusCheck(BaseModel)]. *)
Module StatusCheck.

Record t := mk {
  id : string;
  client_name : string;
  timestamp : datetime
}.

(** [StatusCheck] built from the keyword arguments of [status_dict]. *)
Definition init (uuid : string) (now : datetime) (status_dict : doc)
  : result t :=
  match status_dict !! "client_name" with
  | Some (PStr s) => inr (mk uuid s now)
  | _ => inl (ValidationError ["client_name"])
  end.

Definition model_dump (c : t) : doc :=
  <["id" := PStr (id c)]>
  (<["client_name" := PStr (client_name c)]>
  (<["timestamp" := PDatetime (timestamp c)]> ∅)).

End StatusCheck.

(** [class StatusCheckCreate(BaseModel)]. *)
Module StatusCheckCreate.

Record t := mk { client_name : string }.

(** [client_name: str], required, no constraint. *)
Definition model_validate (body : json) : result t :=
  match body with
  | JObj fields =>
      match fields !! "client_name" ≫= Pydantic.validate_str with
      | Some s => inr (mk s)
      | None => inl (ValidationError ["client_name"])
      end
  | _ => inl (ValidationError ["body"])
  end.

Definition model_dump (c : t) : doc :=
  <["client_name" := PStr (client_name c)]> ∅.

End StatusCheckCreate.

(* ===================================================================== *)
(** ** The route handlers *)
(* ===================================================================== *)

(** What a request draws from its environment: the string of [uuid.uuid4()],
    the reading of [datetime.now(timezone.utc)] and the [ObjectId] the
    driver generates on insertion. *)
Record env := mk_env {
  uuid4 : string;
  now : datetime;
  new_object_id : N
}.

(** [GET /api/]. *)
Definition root : string := "La Congolaise API".

(** [create_review]: builds the [Review], dumps it, replaces [created_at]
    by its ISO string, inserts the document and returns the [Review]. *)
Definition create_review (e : env) (review_input : ReviewCreate.t)
  (db : store) : result Review.t * store :=
  match Review.init (uuid4 e) (now e)
          (ReviewCreate.name review_input)
          (ReviewCreate.rating review_input)
          (ReviewCreate.comment review_input) with
  | inl exn => (inl exn, db)
  | inr review =>
      let d := Review.model_dump review in
      match d !! "created_at" with
      | Some (PDatetime t) =>
          let d := <["created_at" := PStr (Datetime.isoformat t)]> d in
          (inr review,
           mk_store (Mongo.insert_one (new_object_id e) d (reviews db))
                    (status_checks db))
      | Some _ => (inl AttributeError, db)
      | None => (inl (KeyError "created_at"), db)
      end
  end.

(** The [sort_options] table of [get_reviews]. *)
Definition sort_options (sort : SortOrder) : list (string * Z) :=
  match sort with
  | DATE_DESC => [("created_at", -1)]
  | DATE_ASC => [("created_at", 1)]
  | RATING_DESC => [("rating", -1); ("created_at", -1)]
  | RATING_ASC => [("rating", 1); ("created_at", -1)]
  end.

(** The body of the loop of [get_reviews]: [review.get('created_at')] is
    parsed when it is a string, and left alone otherwise (also when the
    key is missing). *)
Definition parse_created_at {iso : IsoExtensions} (review : doc)
  : result doc :=
  match review !! "created_at" with
  | Some (PStr s) =>
      match Datetime.fromisoformat s with
      | Some t => inr (<["created_at" := PDatetime t]> review)
      | None => inl ValueError
      end
  | _ => inr review
  end.

(** [get_reviews]. *)
Definition get_reviews {iso : IsoExtensions} (sort : SortOrder) (db : store)
  : result (list doc) :=
  let found :=
    Mongo.to_list 1000
      (Mongo.sort_by (Mongo.sort_compare (sort_options sort))
         (Mongo.find_all_no_id (reviews db))) in
  for_each parse_created_at found.

(** [get_review_stats]. *)
Definition get_review_stats {srv : ServerArith} (db : store)
  : result ReviewStats.t :=
  match take 1 (Mongo.aggregate_group (reviews db)) with
  | row :: _ =>
      match Mongo.row_average_rating row with
      | Some avg =>
          inr (ReviewStats.mk (round1 avg) (Mongo.row_total_reviews row))
      | None => inl TypeError
      end
  | [] => inr (ReviewStats.mk (Z2float 0) 0)
  end.

(** [create_status_check]. *)
Definition create_status_check (e : env) (input : StatusCheckCreate.t)
  (db : store) : result StatusCheck.t * store :=
  let status_dict := StatusCheckCreate.model_dump input in
  match StatusCheck.init (uuid4 e) (now e) status_dict with
  | inl exn => (inl exn, db)
  | inr status_obj =>
      let d := StatusCheck.model_dump status_obj in
      match d !! "timestamp" with
      | Some (PDatetime t) =>
          let d := <["timestamp" := PStr (Datetime.isoformat t)]> d in
          (inr status_obj,
           mk_store (reviews db)
                    (Mongo.insert_one (new_object_id e) d (status_checks db)))
      | Some _ => (inl AttributeError, db)
      | None => (inl (KeyError "timestamp"), db)
      end
  end.

(** The body of the loop of [get_status_checks]: [check['timestamp']] is
    indexed directly. *)
Definition parse_timestamp {iso : IsoExtensions} (check : doc)
  : result doc :=
  match check !! "timestamp" with
  | None => inl (KeyError "timestamp")
  | Some (PStr s) =>
      match Datetime.fromisoformat s with
      | Some t => inr (<["timestamp" := PDatetime t]> check)
      | None => inl ValueError
      end
  | Some _ => inr check
  end.

(** [get_status_checks]. *)
Definition get_status_checks {iso : IsoExtensions} (db : store)
  : result (list doc) :=
  let found := Mongo.to_list 1000 (Mongo.find_all_no_id (status_checks db)) in
  for_each parse_timestamp found.

(* ===================================================================== *)
(** ** Requests *)
(* ===================================================================== *)

(** [POST /api/reviews] with a JSON body: validation, then the handler. *)
Definition post_reviews `{LaxInt} (e : env) (body : json) (db : store)
  : result Review.t * store :=
  match ReviewCreate.model_validate body with
  | inl exn => (inl exn, db)
  | inr review_input => create_review e review_input db
  end.

(** [GET /api/reviews] with the optional [sort] query parameter:
    [Query(default=SortOrder.DATE_DESC)]. *)
Definition get_reviews_query {iso : IsoExtensions} (sort : option string)
  (db : store) : result (list doc) :=
  match sort with
  | None => get_reviews DATE_DESC db
  | Some v =>
      match SortOrderEnum.of_value v with
      | Some s => get_reviews s db
      | None => inl (ValidationError ["sort"])
      end
  end.

(** [POST /api/status] with a JSON body. *)
Definition post_status (e : env) (body : json) (db : store)
  : result StatusCheck.t * store :=
  match StatusCheckCreate.model_validate body with
  | inl exn => (inl exn, db)
  | inr input => create_status_check e input db
  end.

(** The requests of the HTTP surface. *)
Inductive request :=
| POST_reviews (e : env) (body : json)
| GET_reviews (sort : option string)
| GET_reviews_stats
| POST_status (e : env) (body : json)
| GET_status
| GET_root.

(** The store after a request: only the two creation routes write. *)
Definition next_store `{LaxInt} (r : request) (db : store) : store :=
  match r with
  | POST_reviews e body => snd (post_reviews e body db)
  | POST_status e body => snd (post_status e body db)
  | _ => db
  end.

(** The clock of a request reads what [datetime.now(timezone.utc)] can
    return: a real instant, aware, in UTC. *)
Definition clock_ok (r : request) : Prop :=
  match r with
  | POST_reviews e _ | POST_status e _ => Datetime.datetime_ok (now e) = true
  | _ => True
  end.

(** The store after a sequence of requests. *)
Definition run `{LaxInt} (rs : list request) (db : store) : store :=
  fold_left (λ db r, next_store r db) rs db.

(* ===================================================================== *)
(** ** Configuration *)
(* ===================================================================== *)

Module Config.

(** [s.split(sep)] for a one-character separator: the pieces between the
    separators, empty pieces included. *)
Fixpoint str_split (sep : ascii) (s : string) : list string :=
  match s with
  | EmptyString => [EmptyString]
  | String c s' =>
      if Ascii.eqb c sep then EmptyString :: str_split sep s'
      else
        match str_split sep s' with
        | piece :: pieces => String c piece :: pieces
        | [] => [String c EmptyString]
        end
  end.

(** [sep.join(pieces)]. *)
Fixpoint str_join (sep : ascii) (pieces : list string) : string :=
  match pieces with
  | [] => EmptyString
  | piece :: rest =>
      match rest with
      | [] => piece
      | _ :: _ => piece +:+ String sep (str_join sep rest)
      end
  end.

(** The character occurs in the string. *)
Fixpoint occurs (c : ascii) (s : string) : bool :=
  match s with
  | EmptyString => false
  | String c' s' => Ascii.eqb c' c || occurs c s'
  end.

(** The number of occurrences of the character in the string. *)
Fixpoint count_char (c : ascii) (s : string) : nat :=
  match s with
  | EmptyString => 0%nat
  | String c' s' => ((if Ascii.eqb c' c then 1 else 0) + count_char c s')%nat
  end.

(** The [allow_origins] argument of the CORS middleware:
    [os.environ.get('CORS_ORIGINS', '*').split(',')]. *)
Definition allow_origins (environ : gmap string string) : list string :=
  str_split "," (default "*" (environ !! "CORS_ORIGINS")).

End Config.

(* ===================================================================== *)
(** ** The smoke-test harness ([backend_test.py]) *)
(* ===================================================================== *)

Module Tester.

(** What [requests] gave back: the status code, the parsed body
    ([response.json()], [None] when it raises) and the raw text. *)
Record response := mk_response {
  status_code : Z;
  json_body : option json;
  text : string
}.

(** The outcome of the HTTP call of a test: [requests] raised a
    [RequestException], or a response came back. *)
Inductive exchange :=
| Raised (msg : string)
| Responded (r : response).

(** What the [check_response] closures and [run_test] report, one
    constructor per f-string whose text embeds a value. *)
Inductive message :=
| MissingField (field : string)                     (* "Missing field: ..." *)
| NameMismatch (expected : string) (got : json)
| RatingMismatch (expected : Z) (got : json)
| CommentMismatch (expected : string) (got : option json)
| CreatedReviewId (id : json).                     (* "Created review ID: ..." *)

(** An exception one of the two outer handlers of [run_test] caught. *)
Inductive caught :=
| RequestFailed (msg : string)      (* the HTTP call raised *)
| BodyNotJson                       (* [response.json()] raised on return *)
| ResponseUnbound.                  (* neither GET nor POST: no call was made *)

(** The pieces [run_test] concatenates into the details of a result. *)
Inductive detail :=
| DStatus (code : Z)                (* "Status: {code}" *)
| DCheckFailed (msg : message)      (* ", Response check failed: {msg}" *)
| DResponse (msg : message)         (* ", Response: {msg}" *)
| DParsingError                     (* ", Response parsing error: {e}" *)
| DError (error_data : json)        (* ", Error: {error_data}" *)
| DRawResponse (raw : string)       (* ", Raw response: {text[:200]}" *)
| DCaught (e : caught).             (* "Request error: {e}" / "Unexpected error: {e}" *)

(** An element of [test_results]. *)
Record entry := mk_entry {
  test : string;
  success : bool;
  details : list detail;
  timestamp : string
}.

(** [class RestaurantAPITester]. *)
Record t := mk {
  base_url : string;
  tests_run : Z;
  tests_passed : Z;
  test_results : list entry
}.

(** [__init__]. *)
Definition new (base_url : string) : t := mk base_url 0 0 [].

(** [log_test]; [clock k] is [datetime.now().isoformat()] at the moment the
    [k]-th result is logged. *)
Definition log_test (clock : Z → string) (name : string) (ok : bool)
  (dets : list detail) (self : t) : t :=
  let run := tests_run self + 1 in
  let passed := if ok then tests_passed self + 1 else tests_passed self in
  mk (base_url self) run passed
     (test_results self ++ [mk_entry name ok dets (clock run)]).

(** [run_test], given what the HTTP call of this test produced.  The
    check returns [None] when it raises. *)
Definition run_test (clock : Z → string) (name method : string)
  (expected_status : Z) (check_response : option (json → option (bool * message)))
  (net : exchange) (self : t) : (bool * json) * t :=
  if String.eqb method "GET" || String.eqb method "POST" then
    match net with
    | Raised msg =>
        ((false, JObj ∅), log_test clock name false [DCaught (RequestFailed msg)] self)
    | Responded r =>
        let ok := status_code r =? expected_status in
        let dets := [DStatus (status_code r)] in
        let '(ok, dets) :=
          match ok, check_response with
          | true, Some check =>
              match json_body r ≫= check with
              | Some (false, msg) => (false, dets ++ [DCheckFailed msg])
              | Some (true, msg) => (ok, dets ++ [DResponse msg])
              | None => (false, dets ++ [DParsingError])
              end
          | _, _ => (ok, dets)
          end in
        let dets :=
          if negb ok && negb (status_code r =? expected_status) then
            match json_body r with
            | Some error_data => dets ++ [DError error_data]
            | None => dets ++ [DRawResponse (Utf8.take_chars 200 (text r))]
            end
          else dets in
        let self := log_test clock name ok dets self in
        if ok then
          match json_body r with
          | Some data => ((true, data), self)
          | None =>
              ((false, JObj ∅), log_test clock name false [DCaught BodyNotJson] self)
          end
        else ((false, JObj ∅), self)
    end
  else
    ((false, JObj ∅), log_test clock name false [DCaught ResponseUnbound] self).

(** Truthiness of an optional string ([if comment:]). *)
Definition truthy (comment : option string) : bool :=
  match comment with
  | Some (String _ _) => true
  | _ => false
  end.

(** The payload [test_create_review] sends. *)
Definition review_data (name : string) (rating : Z) (comment : option string)
  : gmap string json :=
  let data : gmap string json :=
    <["rating" := JInt rating]> (<["name" := JStr name]> ∅) in
  match comment with
  | Some (String _ _ as c) => <["comment" := JStr c]> data
  | _ => data
  end.

(** [field in data]: a key of an object, an element of an array, a
    substring of a string; [None] is the [TypeError] on anything else. *)
Definition contains (data : json) (field : string) : option bool :=
  match data with
  | JObj fields => Some (bool_decide (is_Some (fields !! field)))
  | JArr items =>
      Some (existsb (λ v, match v with
                          | JStr s => String.eqb s field
                          | _ => false
                          end) items)
  | JStr s =>
      Some (match String.index 0 field s with Some _ => true | None => false end)
  | _ => None
  end.

(** The first of the fields that is not in the data, if any. *)
Fixpoint first_missing (data : json) (fields : list string)
  : option (option string) :=
  match fields with
  | [] => Some None
  | field :: rest =>
      match contains data field with
      | Some true => first_missing data rest
      | Some false => Some (Some field)
      | None => None
      end
  end.

(** The exact value of a double is the integer [z]. *)
Definition float_eq_Z (f : float) (z : Z) : bool :=
  match Prim2SF f with
  | S754_zero _ => z =? 0
  | S754_finite s m e =>
      let magnitude :=
        if 0 <=? e then Some (Z.pos m * 2 ^ e)
        else if Z.pos m mod 2 ^ (- e) =? 0 then Some (Z.pos m / 2 ^ (- e))
        else None in
      match magnitude with
      | Some v => z =? (if s then - v else v)
      | None => false
      end
  | _ => false
  end.

(** [v == z] for a JSON value and a Python [int]. *)
Definition eq_int (v : json) (z : Z) : bool :=
  match v with
  | JInt z' => z' =? z
  | JBool b => Z.b2z b =? z
  | JFloat f => float_eq_Z f z
  | _ => false
  end.

(** [v == s] for a JSON value and a Python [str]. *)
Definition eq_str (v : json) (s : string) : bool :=
  match v with
  | JStr s' => String.eqb s' s
  | _ => false
  end.

(** The closure [check_create_response] of [test_create_review]. *)
Definition check_create_response (name : string) (rating : Z)
  (comment : option string) (data : json) : option (bool * message) :=
  match first_missing data ["id"; "name"; "rating"; "created_at"] with
  | None => None
  | Some (Some field) => Some (false, MissingField field)
  | Some None =>
      match data with
      | JObj fields =>
          got_name ← fields !! "name";
          got_rating ← fields !! "rating";
          got_id ← fields !! "id";
          if negb (eq_str got_name name) then
            Some (false, NameMismatch name got_name)
          else if negb (eq_int got_rating rating) then
            Some (false, RatingMismatch rating got_rating)
          else
            match comment with
            | Some (String _ _ as c) =>
                if match fields !! "comment" with
                   | Some got => eq_str got c
                   | None => false
                   end
                then Some (true, CreatedReviewId got_id)
                else Some (false, CommentMismatch c (fields !! "comment"))
            | _ => Some (true, CreatedReviewId got_id)
            end
      | _ => None       (* data["name"] on an array or a string *)
      end
  end.

(** The end of [main]: the results that failed, and the exit status. *)
Definition failed_tests (self : t) : list entry :=
  filter (λ r, success r = false) (test_results self).

Definition exit_status (self : t) : Z :=
  if tests_passed self =? tests_run self then 0 else 1.

End Tester.

(* ===================================================================== *)
(** ** Vocabulary of the statements *)
(* ===================================================================== *)

(** The document [create_review] hands to the driver for a [Review]: its
    dump with [created_at] as ISO string. *)
Definition review_document (r : Review.t) : doc :=
  <["created_at" := PStr (Datetime.isoformat (Review.created_at r))]>
    (Review.model_dump r).

(** The same document as the collection holds it, with its [_id]. *)
Definition stored_review (oid : N) (r : Review.t) : doc :=
  <["_id" := PObjectId oid]> (review_document r).

Definition status_document (c : StatusCheck.t) : doc :=
  <["timestamp" := PStr (Datetime.isoformat (StatusCheck.timestamp c))]>
    (StatusCheck.model_dump c).

Definition stored_status (oid : N) (c : StatusCheck.t) : doc :=
  <["_id" := PObjectId oid]> (status_document c).

(** The bounds of the data model on a review: name of 1 to 100 characters,
    rating from 1 to 5, comment absent or of at most 500 characters. *)
Definition review_in_bounds (r : Review.t) : bool :=
  Pydantic.length_between 1 100 (Review.name r) &&
  Pydantic.in_range 1 5 (Review.rating r) &&
  match Review.comment r with
  | None => true
  | Some c => Pydantic.length_between 0 500 c
  end.

(** The same bounds read off a stored document. *)
Definition doc_in_bounds (d : doc) : bool :=
  match d !! "name", d !! "rating", d !! "comment" with
  | Some (PStr n), Some (PInt r), Some c =>
      Pydantic.length_between 1 100 n &&
      Pydantic.in_range 1 5 r &&
      match c with
      | PNone => true
      | PStr c => Pydantic.length_between 0 500 c
      | _ => false
      end
  | _, _, _ => false
  end.

(** A review as the service creates it: within the bounds, stamped with a
    real instant in UTC. *)
Definition review_valid (r : Review.t) : Prop :=
  review_in_bounds r = true ∧ Datetime.datetime_ok (Review.created_at r) = true.

Definition status_valid (c : StatusCheck.t) : Prop :=
  Datetime.datetime_ok (StatusCheck.timestamp c) = true.

(** The four listing orders on reviews, as three-way comparisons:
    [Lt] puts the first review earlier in the listing. *)
Definition review_compare (sort : SortOrder) (a b : Review.t) : comparison :=
  let oldest_first :=
    Datetime.compare (Review.created_at a) (Review.created_at b) in
  let newest_first := CompOpp oldest_first in
  match sort with
  | DATE_DESC => newest_first
  | DATE_ASC => oldest_first
  | RATING_DESC =>
      lex (CompOpp (Review.rating a ?= Review.rating b)) newest_first
  | RATING_ASC => lex (Review.rating a ?= Review.rating b) newest_first
  end.

(** [a] may precede [b] under a three-way comparison. *)
Definition cmp_le {A : Type} (cmp : A → A → comparison) (a b : A) : Prop :=
  cmp a b ≠ Gt.

(** [a] was created no earlier than [b]. *)
Definition newest_first (a b : Review.t) : Prop :=
  Datetime.compare (Review.created_at b) (Review.created_at a) ≠ Gt.

(** Rating descending, creation time newest-first among equal ratings. *)
Definition rating_desc_order (a b : Review.t) : Prop :=
  Review.rating b < Review.rating a ∨
  (Review.rating a = Review.rating b ∧ newest_first a b).

(** Rating ascending, creation time newest-first among equal ratings. *)
Definition rating_asc_order (a b : Review.t) : Prop :=
  Review.rating a < Review.rating b ∨
  (Review.rating a = Review.rating b ∧ newest_first a b).

(** The review a request creates, if any: the record a successful
    [POST /api/reviews] returned. *)
Definition review_created_by `{LaxInt} (r : request) (db : store)
  : list Review.t :=
  match r with
  | POST_reviews e body =>
      match fst (post_reviews e body db) with
      | inr review => [review]
      | inl _ => []
      end
  | _ => []
  end.

(** The reviews a sequence of requests creates, in creation order. *)
Fixpoint created_reviews `{LaxInt} (reqs : list request) (db : store)
  : list Review.t :=
  match reqs with
  | [] => []
  | r :: reqs' =>
      review_created_by r db ++ created_reviews reqs' (next_store r db)
  end.

(** The status check a request creates, if any. *)
Definition status_created_by `{LaxInt} (r : request) (db : store)
  : list StatusCheck.t :=
  match r with
  | POST_status e body =>
      match fst (post_status e body db) with
      | inr status_obj => [status_obj]
      | inl _ => []
      end
  | _ => []
  end.

(** The status checks a sequence of requests creates, in creation order. *)
Fixpoint created_status_checks `{LaxInt} (reqs : list request) (db : store)
  : list StatusCheck.t :=
  match reqs with
  | [] => []
  | r :: reqs' =>
      status_created_by r db ++ created_status_checks reqs' (next_store r db)
  end.

(** The sum of a list of ratings. *)
Definition sum_ratings (rs : list Review.t) : Z :=
  foldr (λ r acc, Review.rating r + acc) 0 rs.

(** The arithmetic mean of the ratings, in double precision, rounded to
    one decimal place. *)
Definition mean_rating_1dp (rs : list Review.t) : float :=
  round1 (PrimFloat.div (Z2float (sum_ratings rs))
                        (Z2float (Z.of_nat (length rs)))).

(** A payload carries the comment [c]: the field is absent or null for
    no comment, and the string otherwise. *)
Definition carries_comment (fields : gmap string json) (c : option string)
  : Prop :=
  match c with
  | None => fields !! "comment" = None ∨ fields !! "comment" = Some JNull
  | Some s => fields !! "comment" = Some (JStr s)
  end.

(** A computation returned normally. *)
Definition returned {A : Type} (r : result A) : Prop :=
  match r with inr _ => True | inl _ => False end.

(** A payload breaks a bound of the data model: its rating does not read
    as an integer within 1..5, or its name is empty or longer than 100
    characters, or its comment is longer than 500 characters. *)
Definition out_of_bounds `{LaxInt} (fields : gmap string json) : Prop :=
  (∃ v, fields !! "rating" = Some v
        ∧ ∀ z, Pydantic.validate_int v = Some z → z < 1 ∨ 5 < z)
  ∨ fields !! "name" = Some (JStr "")
  ∨ (∃ s, fields !! "name" = Some (JStr s) ∧ (100 < Utf8.len s)%nat)
  ∨ (∃ s, fields !! "comment" = Some (JStr s) ∧ (500 < Utf8.len s)%nat).

(** The request [POST /api/reviews {"name": n, "rating": r}]. *)
Definition review_request (e : env) (n : string) (r : Z) : request :=
  POST_reviews e (JObj (<["name" := JStr n]> (<["rating" := JInt r]> ∅))).

(** The status-creation request created a status check. *)
Definition status_created (e : env) (body : json) (db : store) : Prop :=
  returned (fst (post_status e body db)).

(** The body is an object whose [client_name] is a string. *)
Definition client_name_is_str (body : json) : Prop :=
  ∃ fields s, body = JObj fields ∧ fields !! "client_name" = Some (JStr s).

(** The body is an object whose [client_name] is a non-empty string. *)
Definition client_name_is_nonempty_str (body : json) : Prop :=
  ∃ fields s, body = JObj fields ∧ fields !! "client_name" = Some (JStr s)
              ∧ s ≠ "".

(** A library that converts no string and no float to an integer. *)
Definition no_conversion : LaxInt :=
  {| str_as_int := λ _, None; float_as_int := λ _, None |}.

(** A Python that reads the common format of ISO strings and no other. *)
Definition common_format_only : IsoExtensions :=
  {| fromisoformat_extended := λ _, None |}.

(** A server whose mean is the plain sum, left to right, over the count. *)
Definition plain_mean : ServerArith :=
  {| avg_with_doubles := λ ns,
       PrimFloat.div
         (fold_left (λ acc n, PrimFloat.add acc
                                match n with
                                | NInt z => Z2float z
                                | NDouble f => f
                                end) ns (Z2float 0))
         (Z2float (Z.of_nat (length ns))) |}.

(** Sample environments: five requests one second apart. *)
Definition sample_env (i : Z) : env :=
  mk_env ("3f2b8c1e-5d4a-4e6f-9a7b-" +:+ Digits.zfill 12 i)
         (mk_datetime 2025 3 14 18 30 i 250000 (Some 0)) (Z.to_N i).

Definition demo_env : env := sample_env 5.

(** The five reviews of the smoke test, by rating. *)
Definition five_reviews (e1 e2 e3 e4 e5 : env) (n1 n2 n3 n4 n5 : string)
  : list request :=
  [review_request e1 n1 5; review_request e2 n2 4; review_request e3 n3 3;
   review_request e4 n4 5; review_request e5 n5 2].

(** A database of 1001 reviews and 1001 status checks whose documents
    hold nothing but a null timestamp. *)
Definition crowded_store : store :=
  mk_store (replicate 1001 (<["created_at" := PNone]> ∅))
           (replicate 1001 (<["timestamp" := PNone]> ∅)).

(** A database whose only status document lacks the [timestamp] key and
    whose only review document lacks the [created_at] key. *)
Definition keyless_store : store :=
  mk_store [<["name" := PStr "Marie Dubois"]> (<["rating" := PInt 5]> ∅)]
           [<["client_name" := PStr "probe"]> ∅].

(** The values of the [sort] parameter the listing recognises. *)
Definition recognised_sorts : list string :=
  ["date_desc"; "date_asc"; "rating_desc"; "rating_asc"].

(** The fields of a payload are valid and read as name [n], rating [r] and
    comment [c]. *)
Definition valid_review_fields `{LaxInt} (fields : gmap string json)
  (n : string) (r : Z) (c : option string) : Prop :=
  fields !! "name" = Some (JStr n)
  ∧ (1 ≤ Utf8.len n ≤ 100)%nat
  ∧ (∃ v, fields !! "rating" = Some v ∧ Pydantic.validate_int v = Some r)
  ∧ 1 ≤ r ≤ 5
  ∧ carries_comment fields c
  ∧ (∀ s, c = Some s → (Utf8.len s ≤ 500)%nat).

(** The document [d] is the stored document [d0] as the handler of a
    listing returns it: without [_id], the date under [key] parsed when it
    was a string, every other field as stored. *)
Definition listed_from {iso : IsoExtensions} (key : string) (d0 d : doc)
  : Prop :=
  d !! "_id" = None
  ∧ (∀ k, k ≠ "_id" → k ≠ key → d !! k = d0 !! k)
  ∧ match d0 !! key with
    | Some (PStr s) =>
        ∃ t, Datetime.fromisoformat s = Some t ∧ d !! key = Some (PDatetime t)
    | v => d !! key = v
    end.

(** The date of a document under [key] is a string [fromisoformat]
    rejects. *)
Definition unparsable {iso : IsoExtensions} (key : string) (d : doc)
  : Prop :=
  ∃ s, d !! key = Some (PStr s) ∧ Datetime.fromisoformat s = None.

(** [a] was created no later than [b]. *)
Definition oldest_first (a b : Review.t) : Prop :=
  Datetime.compare (Review.created_at a) (Review.created_at b) ≠ Gt.

(** The ratings of a collection that are numbers, in natural order. *)
Definition rating_numbers (coll : list doc) : list number :=
  omap Mongo.rating_number coll.

(** The sum of the integers of a list of numbers. *)
Definition sum_ints (ns : list number) : Z :=
  foldr (λ n acc, match n with NInt z => z + acc | NDouble _ => acc end) 0 ns.

(** The mean of a list of numbers as the server gives it: in double
    precision, the quotient of their sum by their count when all are
    integers, and the server's mean of doubles otherwise. *)
Definition server_mean {srv : ServerArith} (ns : list number) : float :=
  if existsb Mongo.is_double ns then avg_with_doubles ns
  else PrimFloat.div (Z2float (sum_ints ns)) (Z2float (Z.of_nat (length ns))).

(** A database whose only review carries a date that is no ISO string. *)
Definition broken_store : store :=
  mk_store [<["_id" := PObjectId 1]> (<["name" := PStr "Marie Dubois"]>
            (<["created_at" := PStr "yesterday"]> ∅))] [].

(** A database written by other hands: a review dated without offset, a
    review dated by the day alone, a status check stamped at [+02:00]. *)
Definition foreign_store : store :=
  mk_store
    [<["_id" := PObjectId 1]> (<["id" := PStr "r-1"]>
     (<["name" := PStr "Marie Dubois"]> (<["rating" := PInt 5]>
     (<["comment" := PNone]>
     (<["created_at" := PStr "2025-03-14T18:30:05"]> ∅)))));
     <["_id" := PObjectId 2]> (<["id" := PStr "r-2"]>
     (<["name" := PStr "Zoé"]> (<["rating" := PInt 4]>
     (<["comment" := PStr "Très bon"]>
     (<["created_at" := PStr "2025-03-14"]> ∅)))))]
    [<["_id" := PObjectId 3]> (<["id" := PStr "s-1"]>
     (<["client_name" := PStr "probe"]>
     (<["timestamp" := PStr "2025-03-14T18:30:05+02:00"]> ∅)))].

(** What the two listing handlers return on it. *)
Definition foreign_reviews_listed : list doc :=
  [<["id" := PStr "r-1"]>
   (<["name" := PStr "Marie Dubois"]> (<["rating" := PInt 5]>
   (<["comment" := PNone]>
   (<["created_at" := PDatetime (mk_datetime 2025 3 14 18 30 5 0 None)]> ∅))));
   <["id" := PStr "r-2"]>
   (<["name" := PStr "Zoé"]> (<["rating" := PInt 4]>
   (<["comment" := PStr "Très bon"]>
   (<["created_at" := PDatetime (mk_datetime 2025 3 14 0 0 0 0 None)]> ∅))))].

Definition foreign_status_listed : list doc :=
  [<["id" := PStr "s-1"]>
   (<["client_name" := PStr "probe"]>
   (<["timestamp" :=
        PDatetime (mk_datetime 2025 3 14 18 30 5 0 (Some 7200000000))]> ∅))].

(** The JSON a route with [response_model=Review] answers with for a
    record; the text of a datetime is the serializer's. *)
Definition review_json (datetime_json : datetime → string) (r : Review.t)
  : json :=
  JObj (<["id" := JStr (Review.id r)]>
       (<["name" := JStr (Review.name r)]>
       (<["rating" := JInt (Review.rating r)]>
       (<["comment" := match Review.comment r with
                       | Some c => JStr c
                       | None => JNull
                       end]>
       (<["created_at" := JStr (datetime_json (Review.created_at r))]> ∅))))).

(** The counters of a tester agree with its list of results. *)
Definition counters_agree (self : Tester.t) : Prop :=
  Tester.tests_run self = Z.of_nat (length (Tester.test_results self))
  ∧ Tester.tests_passed self
    = Z.of_nat (length (filter (λ r, Tester.success r = true)
                          (Tester.test_results self))).

(** The one case in which [run_test] logs two results: the status is the
    expected one, no check was given, and the body is not JSON. *)
Definition logged_twice (method : string) (expected_status : Z)
  (check_response : option (json → option (bool * Tester.message)))
  (net : Tester.exchange) : bool :=
  (String.eqb method "GET" || String.eqb method "POST") &&
  match net, check_response with
  | Tester.Responded r, None =>
      (Tester.status_code r =? expected_status) &&
      match Tester.json_body r with None => true | Some _ => false end
  | _, _ => false
  end.

(** The tester states a run can reach: a new tester, and what [log_test]
    and [run_test] make of a reachable one. *)
Inductive tester_reachable (clock : Z → string) : Tester.t → Prop :=
| reach_new base_url : tester_reachable clock (Tester.new base_url)
| reach_log_test name ok dets self :
    tester_reachable clock self →
    tester_reachable clock (Tester.log_test clock name ok dets self)
| reach_run_test name method expected_status check_response net self :
    tester_reachable clock self →
    tester_reachable clock
      (snd (Tester.run_test clock name method expected_status
              check_response net self)).

(** A clock for the tester, and the tester after a root test that met a
    500 response. *)
Definition sample_clock (k : Z) : string :=
  "2025-01-01T00:00:" +:+ Digits.zfill 2 k.

Definition failed_root_test : Tester.t :=
  snd (Tester.run_test sample_clock "API Root" "GET" 200 None
         (Tester.Responded
            (Tester.mk_response 500 None "Internal Server Error"))
         (Tester.new "http://localhost:8001")).

(* ===================================================================== *)
(** * Properties *)
(* ===================================================================== *)

(** ** The definitions on sample inputs *)

Example isoformat_whole_second :
  Datetime.isoformat (mk_datetime 2024 2 29 23 59 7 0 (Some 0))
  = "2024-02-29T23:59:07+00:00".
Proof. reflexivity. Qed.

Example isoformat_microseconds :
  Datetime.isoformat (mk_datetime 2024 2 29 23 59 7 1234 (Some 0))
  = "2024-02-29T23:59:07.001234+00:00".
Proof. reflexivity. Qed.

Example isoformat_naive_and_offsets :
  Datetime.isoformat (mk_datetime 2024 2 29 23 59 7 0 None)
  = "2024-02-29T23:59:07"
  ∧ Datetime.isoformat (mk_datetime 2024 2 29 23 59 7 0 (Some (-19800000000)))
    = "2024-02-29T23:59:07-05:30"
  ∧ Datetime.isoformat (mk_datetime 2024 2 29 23 59 7 5 (Some 3600000001))
    = "2024-02-29T23:59:07.000005+01:00:00.000001".
Proof. by split_and!. Qed.

Example fromisoformat_milliseconds (iso : IsoExtensions) :
  Datetime.fromisoformat "2023-02-28 00:00:00.123+00:00"
  = Some (mk_datetime 2023 2 28 0 0 0 123000 (Some 0)).
Proof. reflexivity. Qed.

(** A date alone, a naive datetime, an offset other than UTC and a
    separator of several bytes are read by every release. *)
Example fromisoformat_common_forms (iso : IsoExtensions) :
  Datetime.fromisoformat "2025-03-14"
  = Some (mk_datetime 2025 3 14 0 0 0 0 None)
  ∧ Datetime.fromisoformat "2025-03-14T18:30:05"
    = Some (mk_datetime 2025 3 14 18 30 5 0 None)
  ∧ Datetime.fromisoformat "2025-03-14T18:30:05+02:00"
    = Some (mk_datetime 2025 3 14 18 30 5 0 (Some 7200000000))
  ∧ Datetime.fromisoformat "2025-03-14T18:30-00:00"
    = Some (mk_datetime 2025 3 14 18 30 0 0 (Some 0))
  ∧ Datetime.fromisoformat "2025-03-14é18"
    = Some (mk_datetime 2025 3 14 18 0 0 0 None).
Proof. by split_and!. Qed.

(** What lies outside the common format is left to the release. *)
Example fromisoformat_beyond_common (iso : IsoExtensions) :
  Datetime.fromisoformat "2023-02-29T00:00:00+00:00"
  = fromisoformat_extended "2023-02-29T00:00:00+00:00"
  ∧ Datetime.fromisoformat "2025-03-14T18:30:05Z"
    = fromisoformat_extended "2025-03-14T18:30:05Z"
  ∧ Datetime.fromisoformat "yesterday" = fromisoformat_extended "yesterday".
Proof. by split_and!. Qed.

(** Characters, not bytes, are counted. *)
Example len_counts_characters :
  Utf8.len "Zoé" = 3%nat ∧ String.length "Zoé" = 4%nat
  ∧ Utf8.take_chars 2 "éléphant" = "él".
Proof. by split_and!. Qed.

(** A name of sixty accented letters takes 120 bytes and is within the
    bound of 100 characters; one of 101 letters is not. *)
Example accented_name_within_bounds :
  let name := String.concat "" (replicate 60 "é") in
  String.length name = 120%nat
  ∧ ReviewCreate.model_validate (H := no_conversion)
      (JObj (<["name" := JStr name]> (<["rating" := JInt 4]> ∅)))
    = inr (ReviewCreate.mk name 4 None)
  ∧ ReviewCreate.model_validate (H := no_conversion)
      (JObj (<["name" := JStr (String.concat "" (replicate 101 "a"))]>
            (<["rating" := JInt 4]> ∅)))
    = inl (ValidationError ["name"]).
Proof. by split_and!. Qed.

(** A rating stored as a double enters the mean: ratings [4], [4.5] and a
    document without rating give the mean of the two numbers and the
    count of the three documents. *)
Example stats_with_a_double :
  get_review_stats (srv := plain_mean)
    (mk_store [<["rating" := PInt 4]> ∅; <["rating" := PFloat 4.5]> ∅;
               <["name" := PStr "Zoé"]> ∅] [])
  = inr (ReviewStats.mk 4.2 3).
Proof. reflexivity. Qed.

Example bson_compare_numbers :
  Mongo.bson_compare (PInt 4) (PFloat 4.5) = Lt
  ∧ Mongo.bson_compare (PFloat 4.5) (PInt 5) = Lt
  ∧ Mongo.bson_compare (PFloat 4) (PInt 4) = Eq
  ∧ Mongo.bson_compare (PFloat nan) (PInt (-5)) = Lt
  ∧ Mongo.bson_compare (PInt 9007199254740993) (PFloat 9007199254740992) = Gt.
Proof. by split_and!. Qed.

(** [round(2.25, 1) == 2.2], [round(2.75, 1) == 2.8], [round(2.55, 1) ==
    2.5], [round(0.15, 1) == 0.1], [round(-0.04, 1) == -0.0]. *)
Example round1_samples :
  round1 2.25 = 2.2%float ∧ round1 2.75 = 2.8%float
  ∧ round1 2.55 = 2.5%float ∧ round1 0.15 = 0.1%float
  ∧ round1 (-0.04) = (-0)%float.
Proof. vm_compute. by split_and!. Qed.

Example mean_of_19_over_5 :
  round1 (PrimFloat.div (Z2float 19) (Z2float 5)) = 3.8%float.
Proof. vm_compute. reflexivity. Qed.

Example sort_order_of_value :
  SortOrderEnum.of_value "rating_asc" = Some RATING_ASC
  ∧ SortOrderEnum.of_value "rating" = None.
Proof. by split. Qed.

Example validation_reports_every_field :
  ReviewCreate.model_validate (H := no_conversion)
    (JObj (<["name" := JStr ""]> (<["rating" := JInt 9]> ∅)))
  = inl (ValidationError ["name"; "rating"]).
Proof. reflexivity. Qed.

(** ** Comparisons *)

Lemma lex_Eq_r c : lex c Eq = c.
Proof. by destruct c. Qed.

Lemma Z_compare_order : cmp_order Z.compare.
Proof.
  split.
  - intros a b. apply Z.compare_antisym.
  - intros a b c ->%Z.compare_eq. done.
  - intros a b c H1 H2. exact (Z.lt_trans a b c H1 H2).
Qed.

(** The comparison of keys orders the things that carry them. *)
Lemma cmp_order_on {A B : Type} (key : B → A) (cmp : A → A → comparison) :
  cmp_order cmp → cmp_order (λ x y, cmp (key x) (key y)).
Proof.
  intros [Ha He Ht]. split; intros; eauto.
Qed.

Lemma cmp_order_opp {A : Type} (cmp : A → A → comparison) :
  cmp_order cmp → cmp_order (λ x y, CompOpp (cmp x y)).
Proof.
  intros [Ha He Ht]. split.
  - intros a b. by rewrite (Ha a b).
  - intros a b c H. f_equal. apply He. by destruct (cmp a b).
  - intros a b c H1 H2.
    rewrite (Ha a c). rewrite (Ht c b a); [done| |].
    + rewrite (Ha c b). by destruct (cmp b c).
    + rewrite (Ha b a). by destruct (cmp a b).
Qed.

Lemma cmp_order_lex {A : Type} (c1 c2 : A → A → comparison) :
  cmp_order c1 → cmp_order c2 → cmp_order (λ x y, lex (c1 x y) (c2 x y)).
Proof.
  intros [Ha1 He1 Ht1] [Ha2 He2 Ht2]. split.
  - intros a b. rewrite (Ha1 a b), (Ha2 a b). by destruct (c1 b a).
  - intros a b c H.
    destruct (c1 a b) eqn:E1; simpl in H; try done.
    rewrite (He1 a b c E1). destruct (c1 b c); [|done..].
    by apply He2.
  - intros a b c H1 H2.
    destruct (c1 a b) eqn:E1; simpl in H1; try done.
    + rewrite (He1 a b c E1).
      destruct (c1 b c) eqn:E2; simpl in *; try done. eauto.
    + destruct (c1 b c) eqn:E2; simpl in H2; try done.
      * assert (c1 a c = Lt) as ->; [|done].
        assert (c1 c b = Eq) as E3
          by (rewrite (Ha1 c b), E2; done).
        rewrite (Ha1 a c), (He1 c b a E3), <- (Ha1 a b). done.
      * by rewrite (Ht1 a b c E1 E2).
Qed.

(** ** Strings *)

Module Utf8Facts.

Lemma leading_bytes_le s : (Utf8.leading_bytes s ≤ String.length s)%nat.
Proof.
  induction s as [|c s IH]; simpl; [lia|].
  destruct (Utf8.is_continuation c); lia.
Qed.

(** A string has at most as many characters as bytes, and a string that
    is not empty has a character. *)
Lemma len_le_length s : (Utf8.len s ≤ String.length s)%nat.
Proof.
  destruct s as [|c s]; simpl; [lia|].
  pose proof (leading_bytes_le s). lia.
Qed.

Lemma len_pos s : s ≠ EmptyString ↔ (1 ≤ Utf8.len s)%nat.
Proof. destruct s; simpl; split; (done || lia). Qed.

(** The first [n] characters are at most [n], and all of them when the
    string has no more. *)
Lemma leading_bytes_take_rest n s :
  Utf8.leading_bytes (Utf8.take_rest n s)
  = Nat.min n (Utf8.leading_bytes s).
Proof.
  revert n. induction s as [|c s IH]; intros n; simpl; [lia|].
  destruct (Utf8.is_continuation c) eqn:Hc; simpl.
  - by rewrite Hc.
  - destruct n as [|n]; simpl; [done|]. rewrite Hc, IH. lia.
Qed.

Lemma len_take_chars n s :
  Utf8.len (Utf8.take_chars n s) = Nat.min n (Utf8.len s).
Proof.
  destruct n as [|n], s as [|c s]; simpl; try done.
  by rewrite leading_bytes_take_rest.
Qed.

Lemma take_rest_all n s :
  (Utf8.leading_bytes s ≤ n)%nat → Utf8.take_rest n s = s.
Proof.
  revert n. induction s as [|c s IH]; intros n; cbn [Utf8.leading_bytes
    Utf8.take_rest]; [done|].
  destruct (Utf8.is_continuation c).
  - intros Hn. f_equal. by apply IH.
  - destruct n as [|n]; [lia|]. intros Hn. f_equal. apply IH. lia.
Qed.

Lemma take_chars_all n s : (Utf8.len s ≤ n)%nat → Utf8.take_chars n s = s.
Proof.
  destruct s as [|c s]; [by destruct n|]. unfold Utf8.len, Utf8.take_chars.
  destruct n as [|n]; [lia|]. intros Hn. f_equal. apply take_rest_all. lia.
Qed.

End Utf8Facts.

(** ** Fixed-width decimal fields *)

Module DigitsFacts.
Import Digits.

#[local] Arguments String.append !_ _ /.

Lemma digit_val_char d : 0 ≤ d ≤ 9 → digit_val (digit_char d) = Some d.
Proof.
  intros Hd.
  assert (d = 0 ∨ d = 1 ∨ d = 2 ∨ d = 3 ∨ d = 4 ∨ d = 5 ∨ d = 6 ∨ d = 7
          ∨ d = 8 ∨ d = 9) as Hcases by lia.
  repeat (destruct Hcases as [-> | Hcases]; [reflexivity|]).
  by subst.
Qed.

Lemma digit_char_compare a b :
  0 ≤ a ≤ 9 → 0 ≤ b ≤ 9 →
  Ascii.compare (digit_char a) (digit_char b) = (a ?= b).
Proof.
  intros Ha Hb. unfold Ascii.compare, digit_char.
  rewrite !N_ascii_embedding by lia.
  destruct (Z.compare_spec a b) as [-> | Hlt | Hgt].
  - apply N.compare_refl.
  - apply N.compare_lt_iff. lia.
  - apply N.compare_gt_iff. lia.
Qed.

Lemma pow10_pos (w : nat) : 0 < 10 ^ Z.of_nat w.
Proof. apply Z.pow_pos_nonneg; lia. Qed.

Lemma pow10_succ (w : nat) : 10 ^ Z.of_nat (S w) = 10 * 10 ^ Z.of_nat w.
Proof. rewrite Nat2Z.inj_succ. apply Z.pow_succ_r. lia. Qed.

(** The leading digit and the rest of a number below [10^(w+1)]. *)
Lemma split_leading (w : nat) (n : Z) :
  0 ≤ n < 10 ^ Z.of_nat (S w) →
  0 ≤ n / 10 ^ Z.of_nat w ≤ 9 ∧
  0 ≤ n mod 10 ^ Z.of_nat w < 10 ^ Z.of_nat w ∧
  n = 10 ^ Z.of_nat w * (n / 10 ^ Z.of_nat w) + n mod 10 ^ Z.of_nat w.
Proof.
  rewrite pow10_succ. intros Hn.
  pose proof (pow10_pos w) as Hp.
  pose proof (Z.div_mod n (10 ^ Z.of_nat w)) as Hdm.
  pose proof (Z.mod_pos_bound n (10 ^ Z.of_nat w) Hp) as Hm.
  split; [|split; [done | lia]].
  split.
  - apply Z.div_pos; lia.
  - assert (n / 10 ^ Z.of_nat w < 10); [|lia].
    apply Z.div_lt_upper_bound; lia.
Qed.

(** Reading back a field that was written with [zfill]. *)
Lemma parse_zfill (w : nat) (n acc : Z) (rest : string) :
  0 ≤ n < 10 ^ Z.of_nat w →
  parse_digits w (zfill w n +:+ rest) acc
  = Some (acc * 10 ^ Z.of_nat w + n, rest).
Proof.
  revert n acc. induction w as [|w IH]; intros n acc Hn.
  - change (10 ^ Z.of_nat 0) with 1 in *. cbn [zfill parse_digits String.append].
    do 2 f_equal. lia.
  - destruct (split_leading w n Hn) as (Hq & Hr & Heq).
    cbn [zfill parse_digits String.append].
    rewrite digit_val_char by done.
    rewrite IH by done. rewrite pow10_succ. do 2 f_equal. lia.
Qed.

Lemma parse_zfill0 (w : nat) (n : Z) (rest : string) :
  0 ≤ n < 10 ^ Z.of_nat w →
  parse_digits w (zfill w n +:+ rest) 0 = Some (n, rest).
Proof. intros Hn. by rewrite parse_zfill. Qed.

Lemma compare_cons_same c s t :
  String.compare (String c s) (String c t) = String.compare s t.
Proof.
  simpl. unfold Ascii.compare. by rewrite N.compare_refl.
Qed.

(** Fields of equal width compare like the numbers they print. *)
Lemma compare_zfill (w : nat) (n m : Z) (s t : string) :
  0 ≤ n < 10 ^ Z.of_nat w → 0 ≤ m < 10 ^ Z.of_nat w →
  String.compare (zfill w n +:+ s) (zfill w m +:+ t)
  = lex (n ?= m) (String.compare s t).
Proof.
  revert n m. induction w as [|w IH]; intros n m Hn Hm.
  - change (10 ^ Z.of_nat 0) with 1 in *.
    assert (n = 0) as -> by lia. assert (m = 0) as -> by lia.
    done.
  - destruct (split_leading w n Hn) as (Hqn & Hrn & Heqn).
    destruct (split_leading w m Hm) as (Hqm & Hrm & Heqm).
    pose proof (pow10_pos w) as Hp.
    cbn [zfill String.append String.compare].
    rewrite digit_char_compare by done.
    destruct (Z.compare_spec (n / 10 ^ Z.of_nat w) (m / 10 ^ Z.of_nat w))
      as [Heq | Hlt | Hgt].
    + rewrite IH by done.
      destruct (Z.compare_spec (n mod 10 ^ Z.of_nat w)
                  (m mod 10 ^ Z.of_nat w)) as [Heq' | Hlt' | Hgt'].
      * assert (n = m) as -> by lia. by rewrite Z.compare_refl.
      * rewrite (proj2 (Z.compare_lt_iff n m)) by lia. done.
      * rewrite (proj2 (Z.compare_gt_iff n m)) by lia. done.
    + rewrite (proj2 (Z.compare_lt_iff n m)) by nia. done.
    + rewrite (proj2 (Z.compare_gt_iff n m)) by nia. done.
Qed.

End DigitsFacts.

(** ** [datetime]: ISO strings *)

Module DatetimeFacts.
Import Digits DigitsFacts Datetime.

Lemma datetime_ok_utc d : datetime_ok d = true → utcoffset d = Some 0.
Proof.
  unfold datetime_ok. intros [_ Hoff]%andb_true_iff.
  destruct (utcoffset d) as [o|]; [|done].
  by apply Z.eqb_eq in Hoff as ->.
Qed.

Lemma datetime_ok_fields d : datetime_ok d = true → fields_ok d = true.
Proof. unfold datetime_ok. by intros [? _]%andb_true_iff. Qed.

Lemma datetime_ok_constructible d :
  datetime_ok d = true → constructible d = true.
Proof.
  intros Hok. unfold constructible.
  by rewrite (datetime_ok_fields d Hok), (datetime_ok_utc d Hok).
Qed.

(** The field ranges of a datetime that passed the constructor's
    checks. *)
Lemma datetime_ok_ranges d :
  datetime_ok d = true →
  0 ≤ year d < 10 ^ Z.of_nat 4 ∧ 0 ≤ month d < 10 ^ Z.of_nat 2 ∧
  0 ≤ day d < 10 ^ Z.of_nat 2 ∧ 0 ≤ hour d < 10 ^ Z.of_nat 2 ∧
  0 ≤ minute d < 10 ^ Z.of_nat 2 ∧ 0 ≤ second d < 10 ^ Z.of_nat 2 ∧
  0 ≤ microsecond d < 10 ^ Z.of_nat 6.
Proof.
  intros Hd%datetime_ok_fields. revert Hd.
  unfold fields_ok. rewrite !andb_true_iff, !Z.leb_le.
  intros Hd.
  assert (days_in_month (year d) (month d) ≤ 31).
  { unfold days_in_month. repeat case_match; lia. }
  change (10 ^ Z.of_nat 4) with 10000.
  change (10 ^ Z.of_nat 2) with 100.
  change (10 ^ Z.of_nat 6) with 1000000.
  lia.
Qed.

#[local] Arguments String.append !_ _ /.
#[local] Arguments zfill : simpl never.
#[local] Arguments parse_digits : simpl never.
#[local] Arguments datetime_ok : simpl never.
#[local] Arguments constructible : simpl never.

(** The ISO string of a UTC datetime. *)
Lemma isoformat_utc d :
  datetime_ok d = true →
  isoformat d
  = zfill 4 (year d) +:+ "-" +:+ zfill 2 (month d) +:+ "-" +:+
    zfill 2 (day d) +:+ "T" +:+
    zfill 2 (hour d) +:+ ":" +:+ zfill 2 (minute d) +:+ ":" +:+
    zfill 2 (second d) +:+
    (if microsecond d =? 0 then "+00:00"
     else "." +:+ zfill 6 (microsecond d) +:+ "+00:00").
Proof.
  intros Hok. unfold isoformat. rewrite (datetime_ok_utc d Hok).
  change (format_offset (Some 0)) with "+00:00".
  destruct (microsecond d =? 0); [done|].
  repeat (cbn [String.append]; f_equal).
Qed.

(** The common format covers the strings [isoformat] writes for UTC
    datetimes, and reads them back. *)
Lemma fromisoformat_common_isoformat d :
  datetime_ok d = true → fromisoformat_common (isoformat d) = Some d.
Proof.
  intros Hok.
  destruct (datetime_ok_ranges d Hok) as (Hy & Hmo & Hd & Hh & Hmi & Hs & Hus).
  pose proof (datetime_ok_constructible d Hok) as Hc.
  pose proof (datetime_ok_utc d Hok) as Hutc.
  rewrite isoformat_utc by done. unfold fromisoformat_common.
  rewrite parse_zfill0 by done. cbn.
  rewrite parse_zfill0 by done. cbn.
  rewrite parse_zfill0 by done. cbn -[Utf8.skip_char].
  change (Utf8.skip_char (String "T" ?rest)) with (Some rest).
  cbn. unfold parse_time.
  rewrite parse_zfill0 by done. cbn.
  rewrite parse_zfill0 by done. cbn.
  rewrite parse_zfill0 by done. cbn.
  destruct (Z.eqb_spec (microsecond d) 0) as [Hz | Hnz].
  - cbn -[parse_offset]. change (parse_offset "+00:00") with (Some (Some 0)).
    destruct d; cbn in *; subst. by rewrite Hc.
  - cbn. unfold parse_fraction. rewrite parse_zfill0 by done.
    cbn -[parse_offset]. change (parse_offset "+00:00") with (Some (Some 0)).
    destruct d; cbn in *; subst. by rewrite Hc.
Qed.

(** [fromisoformat] undoes [isoformat]. *)
Lemma fromisoformat_isoformat {iso : IsoExtensions} d :
  datetime_ok d = true → fromisoformat (isoformat d) = Some d.
Proof.
  intros Hok. unfold fromisoformat.
  by rewrite fromisoformat_common_isoformat.
Qed.

(** ISO strings of UTC datetimes compare like the instants: the string
    order the store sorts by is the chronological order. *)
Lemma isoformat_compare a b :
  datetime_ok a = true → datetime_ok b = true →
  String.compare (isoformat a) (isoformat b) = Datetime.compare a b.
Proof.
  intros Ha Hb.
  destruct (datetime_ok_ranges a Ha) as (Hy & Hmo & Hd & Hh & Hmi & Hs & Hus).
  destruct (datetime_ok_ranges b Hb)
    as (Hy' & Hmo' & Hd' & Hh' & Hmi' & Hs' & Hus').
  rewrite !isoformat_utc by done. unfold Datetime.compare.
  do 5 (rewrite compare_zfill by done; f_equal;
        cbn [String.append]; rewrite compare_cons_same).
  rewrite compare_zfill by done; f_equal.
  destruct (Z.eqb_spec (microsecond a) 0) as [Hz | Hnz];
    destruct (Z.eqb_spec (microsecond b) 0) as [Hz' | Hnz'].
  - rewrite Hz, Hz'. reflexivity.
  - rewrite Hz, (proj2 (Z.compare_lt_iff 0 (microsecond b))) by lia.
    reflexivity.
  - rewrite Hz', (proj2 (Z.compare_gt_iff (microsecond a) 0)) by lia.
    reflexivity.
  - cbn [String.append]. rewrite compare_cons_same.
    rewrite compare_zfill by done. apply lex_Eq_r.
Qed.

(** Two UTC datetimes with the same calendar fields are the same. *)
Lemma compare_eq a b :
  datetime_ok a = true → datetime_ok b = true →
  Datetime.compare a b = Eq → a = b.
Proof.
  intros Ha%datetime_ok_utc Hb%datetime_ok_utc.
  unfold Datetime.compare. destruct a, b; simpl in *. subst.
  repeat (match goal with
          | |- context [?x ?= ?y] =>
              destruct (Z.compare_spec x y); simpl; try done
          end).
  intros _. by subst.
Qed.

Lemma compare_order : cmp_order Datetime.compare.
Proof.
  unfold Datetime.compare.
  repeat (apply (cmp_order_lex (λ a b, _ a ?= _ b));
          [apply (cmp_order_on _ Z.compare), Z_compare_order|]).
  apply (cmp_order_on microsecond Z.compare), Z_compare_order.
Qed.

End DatetimeFacts.

(** ** Sorting *)

Module SortFacts.
Import Mongo.

Section sorting.
Context {A : Type} (cmp : A → A → comparison).

Lemma insert_sorted_Permutation x l : insert_sorted cmp x l ≡ₚ x :: l.
Proof.
  induction l as [|y l IH]; [done|]. simpl.
  destruct (cmp x y); [done..|].
  rewrite IH. apply Permutation_swap.
Qed.

Lemma sort_by_Permutation l : sort_by cmp l ≡ₚ l.
Proof.
  induction l as [|x l IH]; [done|].
  unfold sort_by in *. simpl. rewrite insert_sorted_Permutation.
  by constructor.
Qed.

Lemma sort_by_length l : length (sort_by cmp l) = length l.
Proof. apply Permutation_length, sort_by_Permutation. Qed.

Lemma sort_by_elem_of x l : x ∈ sort_by cmp l ↔ x ∈ l.
Proof. by rewrite sort_by_Permutation. Qed.

Context (Hord : cmp_order cmp).

Lemma cmp_le_trans a b c :
  cmp_le cmp a b → cmp_le cmp b c → cmp_le cmp a c.
Proof.
  destruct Hord as [Ha He Ht]. unfold cmp_le. intros H1 H2.
  destruct (cmp a b) eqn:E1; [| |done].
  - by rewrite (He a b c E1).
  - destruct (cmp b c) eqn:E2; [| |done].
    + assert (cmp c b = Eq) as E3 by (by rewrite (Ha c b), E2).
      rewrite (Ha a c), (He c b a E3), <- (Ha a b), E1. done.
    + by rewrite (Ht a b c E1 E2).
Qed.

Lemma cmp_gt_le a b : cmp a b = Gt → cmp_le cmp b a.
Proof.
  destruct Hord as [Ha _ _]. unfold cmp_le. intros H.
  rewrite (Ha b a), H. done.
Qed.

Lemma insert_sorted_StronglySorted x l :
  StronglySorted (cmp_le cmp) l →
  StronglySorted (cmp_le cmp) (insert_sorted cmp x l).
Proof.
  induction 1 as [|y l Hsorted IH Hall]; simpl.
  - repeat constructor.
  - destruct (cmp x y) eqn:E.
    + constructor; [by constructor|]. constructor.
      * unfold cmp_le. by rewrite E.
      * eapply Forall_impl; [exact Hall|]. intros z Hz.
        apply (cmp_le_trans x y z); [|done]. unfold cmp_le. by rewrite E.
    + constructor; [by constructor|]. constructor.
      * unfold cmp_le. by rewrite E.
      * eapply Forall_impl; [exact Hall|]. intros z Hz.
        apply (cmp_le_trans x y z); [|done]. unfold cmp_le. by rewrite E.
    + constructor; [done|].
      rewrite insert_sorted_Permutation. constructor; [|done].
      by apply cmp_gt_le.
Qed.

(** The sort returns its input in the order of the comparison. *)
Lemma sort_by_StronglySorted l : StronglySorted (cmp_le cmp) (sort_by cmp l).
Proof.
  induction l as [|x l IH]; [constructor|].
  by apply insert_sorted_StronglySorted.
Qed.

End sorting.

Lemma insert_sorted_fmap {A B : Type} (f : B → A) cmp cmp' (x : B) l :
  (∀ y, y ∈ l → cmp (f x) (f y) = cmp' x y) →
  insert_sorted cmp (f x) (f <$> l) = f <$> insert_sorted cmp' x l.
Proof.
  induction l as [|y l IH]; intros Hcmp; [done|]. csimpl.
  rewrite (Hcmp y) by left.
  destruct (cmp' x y); [done..|].
  rewrite IH; [done|]. intros z Hz. apply Hcmp. by right.
Qed.

(** Sorting the images under a comparison that agrees with [cmp'] on the
    list sorts the list. *)
Lemma sort_by_fmap {A B : Type} (f : B → A) cmp cmp' (l : list B) :
  (∀ x y, x ∈ l → y ∈ l → cmp (f x) (f y) = cmp' x y) →
  sort_by cmp (f <$> l) = f <$> sort_by cmp' l.
Proof.
  induction l as [|x l IH]; intros Hcmp; [done|].
  change (insert_sorted cmp (f x) (sort_by cmp (f <$> l))
          = f <$> insert_sorted cmp' x (sort_by cmp' l)).
  rewrite IH by (intros; apply Hcmp; by right).
  apply insert_sorted_fmap. intros y Hy. apply Hcmp; [left|right].
  exact (proj1 (sort_by_elem_of cmp' y l) Hy).
Qed.

End SortFacts.

(** ** Loops *)

Lemma for_each_fmap {A B C : Type} (body : A → result B) (f : C → A)
  (g : C → B) (l : list C) :
  (∀ x, x ∈ l → body (f x) = inr (g x)) →
  for_each body (f <$> l) = inr (g <$> l).
Proof.
  induction l as [|x l IH]; intros Hbody; [done|]. csimpl.
  rewrite (Hbody x) by left. rewrite IH; [done|].
  intros y Hy. apply Hbody. by right.
Qed.

Lemma for_each_length {A B : Type} (body : A → result B) l l' :
  for_each body l = inr l' → length l' = length l.
Proof.
  revert l'. induction l as [|x l IH]; intros l'; simpl.
  - by intros [= <-].
  - destruct (body x); [done|]. destruct (for_each body l); [done|].
    intros [= <-]. simpl. f_equal. by apply IH.
Qed.

(** The loop raises at the first element whose body raises. *)
Lemma for_each_raises {A B : Type} (body : A → result B) l1 x l2 e :
  (∀ y, y ∈ l1 → returned (body y)) → body x = inl e →
  for_each body (l1 ++ x :: l2) = inl e.
Proof.
  intros Hok Hx. induction l1 as [|y l1 IH]; simpl.
  - by rewrite Hx.
  - specialize (Hok y (list_elem_of_here _ _)) as Hy.
    destruct (body y); [done|].
    rewrite IH; [done|]. intros z Hz. apply Hok. by right.
Qed.

(** ** Documents *)

Module DocFacts.

Lemma review_document_created_at r :
  review_document r !! "created_at"
  = Some (PStr (Datetime.isoformat (Review.created_at r))).
Proof. reflexivity. Qed.

Lemma review_document_rating r :
  review_document r !! "rating" = Some (PInt (Review.rating r)).
Proof. reflexivity. Qed.

Lemma review_document_name r :
  review_document r !! "name" = Some (PStr (Review.name r)).
Proof. reflexivity. Qed.

Lemma review_document_comment r :
  review_document r !! "comment"
  = Some (match Review.comment r with Some c => PStr c | None => PNone end).
Proof. reflexivity. Qed.

Lemma delete_id_stored_review oid r :
  delete "_id" (stored_review oid r) = review_document r.
Proof. reflexivity. Qed.

Lemma review_document_parsed r :
  <["created_at" := PDatetime (Review.created_at r)]> (review_document r)
  = Review.model_dump r.
Proof. reflexivity. Qed.

Lemma stored_review_lookup oid r k :
  k ≠ "_id" → stored_review oid r !! k = review_document r !! k.
Proof. intros Hk. unfold stored_review. by rewrite lookup_insert_ne. Qed.

Lemma status_document_timestamp c :
  status_document c !! "timestamp"
  = Some (PStr (Datetime.isoformat (StatusCheck.timestamp c))).
Proof. reflexivity. Qed.

Lemma delete_id_stored_status oid c :
  delete "_id" (stored_status oid c) = status_document c.
Proof. reflexivity. Qed.

Lemma status_document_parsed c :
  <["timestamp" := PDatetime (StatusCheck.timestamp c)]> (status_document c)
  = StatusCheck.model_dump c.
Proof. reflexivity. Qed.

End DocFacts.

(** ** The creation handlers *)

Module CreateFacts.
Import DocFacts.

Lemma create_review_ok e input db :
  Pydantic.in_range 1 5 (ReviewCreate.rating input) = true →
  create_review e input db
  = (inr (Review.mk (uuid4 e) (ReviewCreate.name input)
            (ReviewCreate.rating input) (ReviewCreate.comment input) (now e)),
     mk_store
       (reviews db ++
        [stored_review (new_object_id e)
           (Review.mk (uuid4 e) (ReviewCreate.name input)
              (ReviewCreate.rating input) (ReviewCreate.comment input)
              (now e))])
       (status_checks db)).
Proof. intros H. unfold create_review, Review.init. by rewrite H. Qed.

Lemma create_status_check_ok e input db :
  create_status_check e input db
  = (inr (StatusCheck.mk (uuid4 e) (StatusCheckCreate.client_name input)
            (now e)),
     mk_store (reviews db)
       (status_checks db ++
        [stored_status (new_object_id e)
           (StatusCheck.mk (uuid4 e) (StatusCheckCreate.client_name input)
              (now e))])).
Proof. reflexivity. Qed.

Lemma validate_name_bounds fields n :
  ReviewCreate.validate_name fields = Some n →
  Pydantic.length_between 1 100 n = true.
Proof.
  unfold ReviewCreate.validate_name. intros H.
  destruct (fields !! "name") as [[]|]; simplify_eq/=.
  by case_match; simplify_eq.
Qed.

Lemma validate_comment_bounds fields c :
  ReviewCreate.validate_comment fields = Some (Some c) →
  Pydantic.length_between 0 500 c = true.
Proof.
  unfold ReviewCreate.validate_comment. intros H.
  destruct (fields !! "comment") as [[]|]; simplify_eq/=.
  by case_match; simplify_eq.
Qed.

Section lax.
Context `{LaxInt}.

Lemma validate_rating_bounds fields z :
  ReviewCreate.validate_rating fields = Some z →
  Pydantic.in_range 1 5 z = true.
Proof.
  unfold ReviewCreate.validate_rating. intros Hv.
  destruct (fields !! "rating") as [v|]; simplify_eq/=.
  destruct (Pydantic.validate_int v); simplify_eq/=.
  by case_match; simplify_eq.
Qed.

(** A review request either creates a review within the bounds and
    appends its document, or fails validation and leaves the store
    alone. *)
Lemma post_reviews_cases e body db :
  (∃ r, review_in_bounds r = true ∧ Review.id r = uuid4 e ∧
        Review.created_at r = now e ∧
        post_reviews e body db
        = (inr r,
           mk_store (reviews db ++ [stored_review (new_object_id e) r])
                    (status_checks db)))
  ∨ (∃ loc, post_reviews e body db = (inl (ValidationError loc), db)).
Proof.
  unfold post_reviews, ReviewCreate.model_validate.
  destruct body; try (right; eexists; reflexivity).
  destruct (ReviewCreate.validate_name fields) as [n|] eqn:Hn;
    destruct (ReviewCreate.validate_rating fields) as [z|] eqn:Hz;
    destruct (ReviewCreate.validate_comment fields) as [c|] eqn:Hc;
    try (right; eexists; reflexivity).
  left. pose proof (validate_rating_bounds _ _ Hz) as Hr.
  rewrite create_review_ok by done.
  exists (Review.mk (uuid4 e) n z c (now e)). split_and!; [|done..].
  unfold review_in_bounds. simpl.
  rewrite (validate_name_bounds _ _ Hn), Hr. simpl.
  destruct c as [c|]; [|done]. by apply (validate_comment_bounds fields).
Qed.

(** A status request either creates a status check and appends its
    document, or fails validation and leaves the store alone. *)
Lemma post_status_cases e body db :
  (∃ c, StatusCheck.timestamp c = now e ∧ StatusCheck.id c = uuid4 e ∧
        post_status e body db
        = (inr c,
           mk_store (reviews db)
                    (status_checks db ++ [stored_status (new_object_id e) c])))
  ∨ (∃ loc, post_status e body db = (inl (ValidationError loc), db)).
Proof.
  unfold post_status, StatusCheckCreate.model_validate.
  destruct body; try (right; eexists; reflexivity).
  destruct (fields !! "client_name" ≫= Pydantic.validate_str) as [s|];
    [|right; eexists; reflexivity].
  left. rewrite create_status_check_ok.
  exists (StatusCheck.mk (uuid4 e) s (now e)). by split_and!.
Qed.

End lax.

End CreateFacts.

(** ** Stores the service has written *)

Module TraceFacts.
Import Mongo DocFacts DatetimeFacts SortFacts CreateFacts.

Lemma stored_review_in_bounds oid r :
  doc_in_bounds (stored_review oid r) = review_in_bounds r.
Proof.
  unfold doc_in_bounds, review_in_bounds.
  rewrite !stored_review_lookup by done.
  rewrite review_document_name, review_document_rating,
    review_document_comment.
  by destruct (Review.comment r).
Qed.

Section lax.
Context `{LaxInt}.

(** What one request does to the two collections. *)
Lemma next_store_reviews r db :
  ∃ oids,
    reviews (next_store r db)
    = reviews db ++ zip_with stored_review oids (review_created_by r db)
    ∧ length oids = length (review_created_by r db).
Proof.
  destruct r as [e body| | |e body| |]; simpl;
    try (exists []; by rewrite app_nil_r).
  - destruct (post_reviews_cases e body db)
      as [(r & _ & _ & _ & ->)|(loc & ->)]; simpl.
    + by exists [new_object_id e].
    + exists []. by rewrite app_nil_r.
  - destruct (post_status_cases e body db)
      as [(c & _ & _ & ->)|(loc & ->)]; simpl;
      exists []; by rewrite app_nil_r.
Qed.

Lemma next_store_status_checks r db :
  ∃ oids,
    status_checks (next_store r db)
    = status_checks db ++ zip_with stored_status oids (status_created_by r db)
    ∧ length oids = length (status_created_by r db).
Proof.
  destruct r as [e body| | |e body| |]; simpl;
    try (exists []; by rewrite app_nil_r).
  - destruct (post_reviews_cases e body db)
      as [(r & _ & _ & _ & ->)|(loc & ->)]; simpl;
      exists []; by rewrite app_nil_r.
  - destruct (post_status_cases e body db)
      as [(c & _ & _ & ->)|(loc & ->)]; simpl.
    + by exists [new_object_id e].
    + exists []. by rewrite app_nil_r.
Qed.

Lemma review_created_by_valid r db :
  clock_ok r → Forall review_valid (review_created_by r db).
Proof.
  destruct r as [e body| | | | |]; simpl; try by constructor.
  intros Hclock.
  destruct (post_reviews_cases e body db)
    as [(r & Hb & _ & Ht & ->)|(loc & ->)]; simpl; [|by constructor].
  repeat constructor; [done|]. by rewrite Ht.
Qed.

Lemma status_created_by_valid r db :
  clock_ok r → Forall status_valid (status_created_by r db).
Proof.
  destruct r as [| | |e body| |]; simpl; try by constructor.
  intros Hclock.
  destruct (post_status_cases e body db)
    as [(c & Ht & _ & ->)|(loc & ->)]; simpl; [|by constructor].
  repeat constructor. unfold status_valid. by rewrite Ht.
Qed.

(** The review collection after a sequence of requests: the documents
    of the created reviews, appended in creation order. *)
Lemma run_reviews reqs db :
  ∃ oids,
    reviews (run reqs db)
    = reviews db ++ zip_with stored_review oids (created_reviews reqs db)
    ∧ length oids = length (created_reviews reqs db).
Proof.
  revert db. induction reqs as [|r reqs IH]; intros db.
  - exists []. by rewrite app_nil_r.
  - destruct (IH (next_store r db)) as (oids2 & Heq2 & Hlen2).
    destruct (next_store_reviews r db) as (oids1 & Heq1 & Hlen1).
    exists (oids1 ++ oids2). simpl.
    change (run (r :: reqs) db) with (run reqs (next_store r db)).
    rewrite Heq2, Heq1, <- app_assoc.
    rewrite zip_with_app by done. by rewrite !length_app, Hlen1, Hlen2.
Qed.

Lemma run_status_checks reqs db :
  ∃ oids,
    status_checks (run reqs db)
    = status_checks db
      ++ zip_with stored_status oids (created_status_checks reqs db)
    ∧ length oids = length (created_status_checks reqs db).
Proof.
  revert db. induction reqs as [|r reqs IH]; intros db.
  - exists []. by rewrite app_nil_r.
  - destruct (IH (next_store r db)) as (oids2 & Heq2 & Hlen2).
    destruct (next_store_status_checks r db) as (oids1 & Heq1 & Hlen1).
    exists (oids1 ++ oids2). simpl.
    change (run (r :: reqs) db) with (run reqs (next_store r db)).
    rewrite Heq2, Heq1, <- app_assoc.
    rewrite zip_with_app by done. by rewrite !length_app, Hlen1, Hlen2.
Qed.

Lemma created_reviews_valid reqs db :
  Forall clock_ok reqs → Forall review_valid (created_reviews reqs db).
Proof.
  intros Hclock. revert db.
  induction Hclock as [|r reqs Hr _ IH]; intros db; simpl; [done|].
  apply Forall_app. split; [by apply review_created_by_valid | apply IH].
Qed.

Lemma created_status_checks_valid reqs db :
  Forall clock_ok reqs →
  Forall status_valid (created_status_checks reqs db).
Proof.
  intros Hclock. revert db.
  induction Hclock as [|r reqs Hr _ IH]; intros db; simpl; [done|].
  apply Forall_app. split; [by apply status_created_by_valid | apply IH].
Qed.

End lax.

(** Without their [_id], stored documents are the documents the handler
    built. *)
Lemma find_all_no_id_stored_reviews oids rs :
  length oids = length rs →
  find_all_no_id (zip_with stored_review oids rs) = review_document <$> rs.
Proof.
  revert rs. induction oids as [|o oids IH]; intros [|r rs] Hlen;
    simplify_eq/=; [done|].
  unfold find_all_no_id in *. csimpl.
  by rewrite delete_id_stored_review, IH.
Qed.

Lemma find_all_no_id_stored_status oids cs :
  length oids = length cs →
  find_all_no_id (zip_with stored_status oids cs) = status_document <$> cs.
Proof.
  revert cs. induction oids as [|o oids IH]; intros [|c cs] Hlen;
    simplify_eq/=; [done|].
  unfold find_all_no_id in *. csimpl.
  by rewrite delete_id_stored_status, IH.
Qed.

End TraceFacts.

(** ** The listing and statistics handlers on stores the service wrote *)

Module ListingFacts.
Import Mongo DocFacts DatetimeFacts SortFacts TraceFacts.

Section runtime.
Context {iso : IsoExtensions} {srv : ServerArith}.

Lemma parse_created_at_document r :
  review_valid r →
  parse_created_at (review_document r) = inr (Review.model_dump r).
Proof.
  intros [_ Hok]. unfold parse_created_at.
  rewrite review_document_created_at, fromisoformat_isoformat by done.
  by rewrite review_document_parsed.
Qed.

Lemma parse_timestamp_document c :
  status_valid c →
  parse_timestamp (status_document c) = inr (StatusCheck.model_dump c).
Proof.
  intros Hok. unfold parse_timestamp.
  rewrite status_document_timestamp, fromisoformat_isoformat by done.
  by rewrite status_document_parsed.
Qed.

Lemma sort_key_created_at r :
  sort_key (review_document r) "created_at"
  = PStr (Datetime.isoformat (Review.created_at r)).
Proof. reflexivity. Qed.

Lemma sort_key_rating r :
  sort_key (review_document r) "rating" = PInt (Review.rating r).
Proof. reflexivity. Qed.

Lemma bson_compare_str s t :
  bson_compare (PStr s) (PStr t) = String.compare s t.
Proof. reflexivity. Qed.

Lemma bson_compare_int x y : bson_compare (PInt x) (PInt y) = (x ?= y).
Proof. reflexivity. Qed.

(** On the documents of valid reviews the store's sort specification is
    the order on the reviews themselves. *)
Lemma sort_compare_review_document sort a b :
  review_valid a → review_valid b →
  sort_compare (sort_options sort) (review_document a) (review_document b)
  = review_compare sort a b.
Proof.
  intros [_ Ha] [_ Hb].
  pose proof (isoformat_compare _ _ Ha Hb) as Hiso.
  destruct sort; unfold sort_options, review_compare; cbn [sort_compare];
    rewrite ?sort_key_created_at, ?sort_key_rating,
      ?bson_compare_str, ?bson_compare_int, Hiso;
    change (0 <? -1) with false; change (0 <? 1) with true;
    cbv iota; by rewrite ?lex_Eq_r.
Qed.

Lemma review_compare_order sort : cmp_order (review_compare sort).
Proof.
  pose proof (cmp_order_on Review.created_at _ compare_order) as Hdate.
  pose proof (cmp_order_on Review.rating _ Z_compare_order) as Hrating.
  pose proof (cmp_order_opp _ Hdate) as Hnewest.
  destruct sort; unfold review_compare; simpl.
  - exact Hnewest.
  - exact Hdate.
  - exact (cmp_order_lex _ _ (cmp_order_opp _ Hrating) Hnewest).
  - exact (cmp_order_lex _ _ Hrating Hnewest).
Qed.

(** Listing a collection that holds the documents of valid reviews
    returns the dumps of those reviews, sorted, the first 1000. *)
Lemma get_reviews_of_documents sort db rs :
  find_all_no_id (reviews db) = review_document <$> rs →
  Forall review_valid rs →
  get_reviews sort db
  = inr (Review.model_dump
           <$> take 1000 (sort_by (review_compare sort) rs)).
Proof.
  intros Hdocs Hvalid. rewrite Forall_forall in Hvalid.
  unfold get_reviews, to_list. rewrite Hdocs.
  rewrite (sort_by_fmap review_document _ (review_compare sort))
    by (intros; apply sort_compare_review_document; auto).
  rewrite <- fmap_take. apply for_each_fmap.
  intros r Hr. apply parse_created_at_document, Hvalid.
  apply (sort_by_elem_of (review_compare sort)).
  by eapply subseteq_take.
Qed.

Lemma get_status_checks_of_documents db cs :
  find_all_no_id (status_checks db) = status_document <$> cs →
  Forall status_valid cs →
  get_status_checks db = inr (StatusCheck.model_dump <$> take 1000 cs).
Proof.
  intros Hdocs Hvalid. rewrite Forall_forall in Hvalid.
  unfold get_status_checks, to_list. rewrite Hdocs, <- fmap_take.
  apply for_each_fmap. intros c Hc.
  apply parse_timestamp_document, Hvalid. by eapply subseteq_take.
Qed.

(** One pass of the [$group] accumulators over the documents of a list
    of reviews: the sum of the ratings and, twice, their number; the
    numbers seen are the ratings, all integers. *)
Lemma fold_group_step coll rs acc :
  find_all_no_id coll = review_document <$> rs →
  fold_left group_step coll acc
  = mk_group_acc (avg_sum acc + sum_ratings rs)
                 (avg_count acc + Z.of_nat (length rs))
                 (sum_one acc + Z.of_nat (length rs))
                 (avg_seen acc ++ (NInt ∘ Review.rating <$> rs)).
Proof.
  revert rs acc. induction coll as [|d coll IH]; intros [|r rs] acc Hdocs;
    simplify_eq/=.
  - destruct acc; simpl. rewrite app_nil_r. f_equal; lia.
  - rewrite (IH rs) by done.
    assert (d !! "rating" = Some (PInt (Review.rating r))) as Hrating.
    { rewrite <- (lookup_delete_ne d "_id" "rating") by done.
      by rewrite H, review_document_rating. }
    unfold group_step, rating_number. rewrite Hrating. simpl.
    rewrite <- app_assoc. f_equal; lia.
Qed.

Lemma existsb_is_double_ints (zs : list Z) :
  existsb is_double (NInt <$> zs) = false.
Proof. by induction zs. Qed.

Lemma get_review_stats_of_documents db rs :
  find_all_no_id (reviews db) = review_document <$> rs → rs ≠ [] →
  get_review_stats db
  = inr (ReviewStats.mk (mean_rating_1dp rs) (Z.of_nat (length rs))).
Proof.
  intros Hdocs Hne. unfold get_review_stats, aggregate_group.
  destruct (reviews db) as [|d coll] eqn:Hcoll.
  { by destruct rs. }
  rewrite (fold_group_step _ rs) by done. cbn [take avg_sum avg_count sum_one
    avg_seen row_average_rating row_total_reviews app].
  rewrite !Z.add_0_l, list_fmap_compose, existsb_is_double_ints.
  destruct (Z.eqb_spec (Z.of_nat (length rs)) 0) as [Hz|_]; [|done].
  destruct rs; [done|simpl in Hz; lia].
Qed.

Section lax.
Context `{LaxInt}.

Lemma review_documents_run reqs :
  find_all_no_id (reviews (run reqs empty_store))
  = review_document <$> created_reviews reqs empty_store.
Proof.
  destruct (run_reviews reqs empty_store) as (oids & -> & Hlen).
  by apply find_all_no_id_stored_reviews.
Qed.

Lemma status_documents_run reqs :
  find_all_no_id (status_checks (run reqs empty_store))
  = status_document <$> created_status_checks reqs empty_store.
Proof.
  destruct (run_status_checks reqs empty_store) as (oids & -> & Hlen).
  by apply find_all_no_id_stored_status.
Qed.

(** Listing after a sequence of requests on an empty database. *)
Lemma get_reviews_run reqs sort :
  Forall clock_ok reqs →
  get_reviews sort (run reqs empty_store)
  = inr (Review.model_dump
           <$> take 1000 (sort_by (review_compare sort)
                            (created_reviews reqs empty_store))).
Proof.
  intros Hclock. apply get_reviews_of_documents.
  - apply review_documents_run.
  - by apply created_reviews_valid.
Qed.

Lemma get_status_checks_run reqs :
  Forall clock_ok reqs →
  get_status_checks (run reqs empty_store)
  = inr (StatusCheck.model_dump
           <$> take 1000 (created_status_checks reqs empty_store)).
Proof.
  intros Hclock. apply get_status_checks_of_documents.
  - apply status_documents_run.
  - by apply created_status_checks_valid.
Qed.

End lax.

End runtime.

End ListingFacts.

(** ** Accepted payloads *)

Module PayloadFacts.
Import CreateFacts.

Lemma length_between_iff lo hi s :
  Pydantic.length_between lo hi s = true
  ↔ (lo ≤ Utf8.len s ≤ hi)%nat.
Proof.
  unfold Pydantic.length_between.
  rewrite andb_true_iff, !Nat.leb_le. done.
Qed.

Lemma length_between_false lo hi s :
  (Utf8.len s < lo ∨ hi < Utf8.len s)%nat →
  Pydantic.length_between lo hi s = false.
Proof.
  intros Hout. apply not_true_is_false. rewrite length_between_iff. lia.
Qed.

Lemma in_range_iff lo hi z : Pydantic.in_range lo hi z = true ↔ lo ≤ z ≤ hi.
Proof.
  unfold Pydantic.in_range. rewrite andb_true_iff, !Z.leb_le. done.
Qed.

Lemma in_range_false lo hi z :
  z < lo ∨ hi < z → Pydantic.in_range lo hi z = false.
Proof.
  intros Hout. apply not_true_is_false. rewrite in_range_iff. lia.
Qed.

#[local] Arguments Pydantic.length_between : simpl never.
#[local] Arguments Pydantic.in_range : simpl never.

Section lax.
Context `{LaxInt}.

Lemma model_validate_accepts fields n r c :
  fields !! "name" = Some (JStr n) →
  fields !! "rating" = Some (JInt r) →
  carries_comment fields c →
  (1 ≤ Utf8.len n ≤ 100)%nat →
  1 ≤ r ≤ 5 →
  (∀ s, c = Some s → (Utf8.len s ≤ 500)%nat) →
  ReviewCreate.model_validate (JObj fields) = inr (ReviewCreate.mk n r c).
Proof.
  intros Hn Hr Hc Hlen Hrange Hclen.
  unfold ReviewCreate.model_validate.
  assert (ReviewCreate.validate_name fields = Some n) as ->.
  { unfold ReviewCreate.validate_name. rewrite Hn. simpl.
    by rewrite (proj2 (length_between_iff 1 100 n)). }
  assert (ReviewCreate.validate_rating fields = Some r) as ->.
  { unfold ReviewCreate.validate_rating. rewrite Hr. simpl.
    by rewrite (proj2 (in_range_iff 1 5 r)). }
  assert (ReviewCreate.validate_comment fields = Some c) as ->; [|done].
  unfold ReviewCreate.validate_comment.
  destruct c as [s|]; simpl in Hc.
  - rewrite Hc. simpl. specialize (Hclen s eq_refl).
    rewrite (proj2 (length_between_iff 0 500 s)); [done|lia].
  - by destruct Hc as [-> | ->].
Qed.

(** A payload within the bounds creates the review it describes. *)
Lemma post_reviews_accepts e db fields n r c :
  fields !! "name" = Some (JStr n) →
  fields !! "rating" = Some (JInt r) →
  carries_comment fields c →
  (1 ≤ Utf8.len n ≤ 100)%nat →
  1 ≤ r ≤ 5 →
  (∀ s, c = Some s → (Utf8.len s ≤ 500)%nat) →
  post_reviews e (JObj fields) db
  = (inr (Review.mk (uuid4 e) n r c (now e)),
     mk_store
       (reviews db ++
        [stored_review (new_object_id e)
           (Review.mk (uuid4 e) n r c (now e))])
       (status_checks db)).
Proof.
  intros Hn Hr Hc Hlen Hrange Hclen. unfold post_reviews.
  rewrite (model_validate_accepts fields n r c) by done.
  rewrite create_review_ok; [done|]. by apply in_range_iff.
Qed.

Lemma post_status_accepts e db fields s :
  fields !! "client_name" = Some (JStr s) →
  post_status e (JObj fields) db
  = (inr (StatusCheck.mk (uuid4 e) s (now e)),
     mk_store (reviews db)
       (status_checks db ++
        [stored_status (new_object_id e)
           (StatusCheck.mk (uuid4 e) s (now e))])).
Proof.
  intros Hs. unfold post_status, StatusCheckCreate.model_validate.
  rewrite Hs. simpl. by rewrite create_status_check_ok.
Qed.

(** A payload that breaks a bound is rejected by the validation. *)
Lemma model_validate_rejects fields :
  out_of_bounds fields →
  ∃ loc, ReviewCreate.model_validate (JObj fields)
         = inl (ValidationError loc).
Proof.
  intros Hbad. unfold ReviewCreate.model_validate.
  assert (ReviewCreate.validate_name fields = None
          ∨ ReviewCreate.validate_rating fields = None
          ∨ ReviewCreate.validate_comment fields = None) as Hnone.
  { destruct Hbad as [(v & Hv & Hout)|[Hempty|[(s & Hs & Hlen)
                      |(s & Hs & Hlen)]]].
    - right; left. unfold ReviewCreate.validate_rating.
      rewrite Hv. simpl.
      destruct (Pydantic.validate_int v) as [z|]; [|done]. simpl.
      by rewrite in_range_false by auto.
    - left. unfold ReviewCreate.validate_name. by rewrite Hempty.
    - left. unfold ReviewCreate.validate_name.
      rewrite Hs. simpl. rewrite length_between_false; [done|lia].
    - right; right. unfold ReviewCreate.validate_comment.
      rewrite Hs. simpl. rewrite length_between_false; [done|lia]. }
  destruct (ReviewCreate.validate_name fields),
    (ReviewCreate.validate_rating fields),
    (ReviewCreate.validate_comment fields); try (eexists; reflexivity).
  by destruct Hnone as [?|[?|?]].
Qed.

(** Every document of the review collection stays within the bounds
    of the data model. *)
Lemma run_in_bounds reqs db :
  Forall (λ d, doc_in_bounds d = true) (reviews db) →
  Forall (λ d, doc_in_bounds d = true) (reviews (run reqs db)).
Proof.
  revert db. induction reqs as [|r reqs IH]; intros db Hdb; [done|].
  apply IH.
  destruct r as [e body| | |e body| |]; simpl; try done.
  - destruct (post_reviews_cases e body db)
      as [(r & Hb & _ & _ & ->)|(loc & ->)]; simpl; [|done].
    apply Forall_app. split; [done|]. repeat constructor.
    by rewrite TraceFacts.stored_review_in_bounds.
  - destruct (post_status_cases e body db)
      as [(c & _ & _ & ->)|(loc & ->)]; by simpl.
Qed.

End lax.

End PayloadFacts.

(** ** Orders on reviews *)

Module OrderFacts.
Import DatetimeFacts SortFacts ListingFacts.

Lemma StronglySorted_mono {A : Type} (R R' : A → A → Prop) l :
  (∀ a b, R a b → R' a b) → StronglySorted R l → StronglySorted R' l.
Proof.
  intros Himpl. induction 1 as [|x l Hs IH Hall]; constructor; [done|].
  eapply Forall_impl; [exact Hall|]. auto.
Qed.

Lemma newest_first_opp a b :
  CompOpp (Datetime.compare (Review.created_at a) (Review.created_at b)) ≠ Gt
  → newest_first a b.
Proof.
  unfold newest_first. intros Hle.
  by rewrite (cmp_antisym _ compare_order (Review.created_at b)
                (Review.created_at a)).
Qed.

Lemma rating_desc_order_of_compare a b :
  cmp_le (review_compare RATING_DESC) a b → rating_desc_order a b.
Proof.
  unfold cmp_le, review_compare, rating_desc_order.
  destruct (Z.compare_spec (Review.rating a) (Review.rating b)); simpl;
    intros Hle; [|done|].
  - right. split; [done|]. by apply newest_first_opp.
  - by left.
Qed.

Lemma rating_asc_order_of_compare a b :
  cmp_le (review_compare RATING_ASC) a b → rating_asc_order a b.
Proof.
  unfold cmp_le, review_compare, rating_asc_order.
  destruct (Z.compare_spec (Review.rating a) (Review.rating b)); simpl;
    intros Hle; [| |done].
  - right. split; [done|]. by apply newest_first_opp.
  - by left.
Qed.

Lemma newest_first_of_compare a b :
  cmp_le (review_compare DATE_DESC) a b → newest_first a b.
Proof. apply newest_first_opp. Qed.

(** The listing order of a sort value, sorted and complete. *)
Lemma sorted_listing (sort : SortOrder) (R : Review.t → Review.t → Prop)
  (rs : list Review.t) :
  (∀ a b, cmp_le (review_compare sort) a b → R a b) →
  Mongo.sort_by (review_compare sort) rs ≡ₚ rs
  ∧ StronglySorted R (Mongo.sort_by (review_compare sort) rs).
Proof.
  intros HR. split; [apply sort_by_Permutation|].
  eapply StronglySorted_mono; [exact HR|].
  apply sort_by_StronglySorted, review_compare_order.
Qed.

Section lax.
Context `{LaxInt}.

Lemma review_request_created e n r db :
  (1 ≤ Utf8.len n ≤ 100)%nat → 1 ≤ r ≤ 5 →
  review_created_by (review_request e n r) db
  = [Review.mk (uuid4 e) n r None (now e)].
Proof.
  intros Hn Hr. unfold review_created_by, review_request.
  rewrite (PayloadFacts.post_reviews_accepts e db _ n r None); try done.
  by left.
Qed.

(** The five reviews of the smoke test are all created. *)
Lemma five_reviews_created e1 e2 e3 e4 e5 n1 n2 n3 n4 n5 db :
  Forall (λ n, (1 ≤ Utf8.len n ≤ 100)%nat) [n1; n2; n3; n4; n5] →
  created_reviews (five_reviews e1 e2 e3 e4 e5 n1 n2 n3 n4 n5) db
  = [Review.mk (uuid4 e1) n1 5 None (now e1);
     Review.mk (uuid4 e2) n2 4 None (now e2);
     Review.mk (uuid4 e3) n3 3 None (now e3);
     Review.mk (uuid4 e4) n4 5 None (now e4);
     Review.mk (uuid4 e5) n5 2 None (now e5)].
Proof.
  intros Hn. repeat (apply Forall_cons in Hn as [? Hn]).
  unfold five_reviews. cbn [created_reviews].
  by rewrite !review_request_created by (done || lia).
Qed.

End lax.

End OrderFacts.

(** ** Rounding *)

Module RoundFacts.

(** [round_half_even_div n d] is an integer nearest to [n / d]. *)
Lemma round_half_even_div_nearest n d :
  0 < d → 2 * Z.abs (n - round_half_even_div n d * d) ≤ d.
Proof.
  intros Hd. unfold round_half_even_div.
  pose proof (Z.div_mod n d) as Hdm.
  pose proof (Z.mod_pos_bound n d Hd) as Hr.
  destruct (Z.compare_spec (2 * (n mod d)) d) as [Heq|Hlt|Hgt];
    [destruct (Z.even (n / d))|..]; nia.
Qed.

(** Below [2^49], [round(x, 1)] is the double of a decimal [tenths / 10]
    that lies within one twentieth of [x]. *)
Lemma round1_nearest_tenth x s m e :
  Prim2SF x = S754_finite s m e → e < -3 →
  ∃ tenths : Z,
    round1 x
    = (if s then PrimFloat.opp else id)
        (PrimFloat.div (Z2float tenths) (Z2float 10))
    ∧ 2 * Z.abs (10 * Z.pos m - tenths * 2 ^ (- e)) ≤ 2 ^ (- e).
Proof.
  intros Hx He. unfold round1. rewrite Hx.
  destruct (Z.leb_spec (-3) e) as [?|_]; [lia|].
  exists (round_half_even_div (10 * Z.pos m) (2 ^ (- e))). split.
  - by destruct s.
  - apply round_half_even_div_nearest. apply Z.pow_pos_nonneg; lia.
Qed.

End RoundFacts.

(** ** What the listings can raise, and how much they return *)

Module CapFacts.

Section runtime.
Context {iso : IsoExtensions} {srv : ServerArith}.

Lemma for_each_inl {A B : Type} (body : A → result B) l e :
  for_each body l = inl e → ∃ x, x ∈ l ∧ body x = inl e.
Proof.
  induction l as [|x l IH]; simpl; [done|].
  destruct (body x) as [e'|y] eqn:Hx.
  - intros [= ->]. exists x. split; [left|done].
  - destruct (for_each body l); [|done].
    intros [= ->]. destruct IH as (z & Hz & Hbody); [done|].
    exists z. split; [by right|done].
Qed.

Lemma parse_created_at_raises review e :
  parse_created_at review = inl e → e = ValueError.
Proof.
  unfold parse_created_at. intros Hr.
  repeat case_match; by simplify_eq.
Qed.

(** The review listing raises nothing but the [ValueError] of an
    unparsable stored date. *)
Lemma get_reviews_raises sort db e :
  get_reviews sort db = inl e → e = ValueError.
Proof.
  unfold get_reviews. intros (x & _ & Hx)%for_each_inl.
  by eapply parse_created_at_raises.
Qed.

Lemma get_reviews_length sort db l :
  get_reviews sort db = inr l → (length l ≤ 1000)%nat.
Proof.
  unfold get_reviews, Mongo.to_list. intros ->%for_each_length.
  rewrite length_take. lia.
Qed.

Lemma get_status_checks_length db l :
  get_status_checks db = inr l → (length l ≤ 1000)%nat.
Proof.
  unfold get_status_checks, Mongo.to_list. intros ->%for_each_length.
  rewrite length_take. lia.
Qed.

Lemma of_value_unrecognised v :
  v ∉ recognised_sorts → SortOrderEnum.of_value v = None.
Proof.
  unfold recognised_sorts. intros Hv.
  unfold SortOrderEnum.of_value, SortOrderEnum.members.
  cbn [find SortOrderEnum.value].
  repeat match goal with
         | |- context [String.eqb ?s v] =>
             destruct (String.eqb_spec s v) as [Heq|_];
             [exfalso; apply Hv; rewrite <- Heq; repeat constructor|]
         end.
  done.
Qed.

End runtime.

End CapFacts.

(** ** Round trips and missing keys *)

Module RoundTripFacts.
Import TraceFacts ListingFacts SortFacts.

Section runtime.
Context {iso : IsoExtensions} {srv : ServerArith}.

Lemma for_each_inr {A B : Type} (body : A → result B) l l' x :
  for_each body l = inr l' → x ∈ l → returned (body x).
Proof.
  revert l'. induction l as [|y l IH]; intros l' Hl Hx; simpl in Hl.
  - by apply elem_of_nil in Hx.
  - destruct (body y) as [|z] eqn:Hy; [done|].
    destruct (for_each body l) as [|zs]; [done|].
    apply elem_of_cons in Hx as [->|Hx]; [by rewrite Hy|]. by eapply IH.
Qed.

Lemma for_each_id {A : Type} (body : A → result A) l :
  (∀ x, x ∈ l → body x = inr x) → for_each body l = inr l.
Proof.
  intros Hbody. rewrite <- (list_fmap_id l) at 1.
  rewrite (for_each_fmap body id id); [by rewrite list_fmap_id|done].
Qed.

Lemma take_middle {A : Type} (n : nat) (l1 : list A) x l2 :
  (length l1 < n)%nat →
  take n (l1 ++ x :: l2) = l1 ++ x :: take (n - S (length l1)) l2.
Proof.
  intros Hlen. rewrite take_app, take_ge by lia. f_equal.
  destruct (n - length l1)%nat as [|m] eqn:Hm; [lia|].
  simpl. do 2 f_equal. lia.
Qed.

Lemma parse_timestamp_missing (check : doc) :
  check !! "timestamp" = None →
  parse_timestamp check = inl (KeyError "timestamp").
Proof. unfold parse_timestamp. by intros ->. Qed.

Lemma parse_created_at_missing (review : doc) :
  review !! "created_at" = None → parse_created_at review = inr review.
Proof. unfold parse_created_at. by intros ->. Qed.

Section lax.
Context `{LaxInt}.

Lemma created_reviews_app reqs1 reqs2 db :
  created_reviews (reqs1 ++ reqs2) db
  = created_reviews reqs1 db ++ created_reviews reqs2 (run reqs1 db).
Proof.
  revert db. induction reqs1 as [|r reqs1 IH]; intros db; [done|].
  simpl. rewrite IH, <- app_assoc. done.
Qed.

Lemma created_status_checks_app reqs1 reqs2 db :
  created_status_checks (reqs1 ++ reqs2) db
  = created_status_checks reqs1 db
    ++ created_status_checks reqs2 (run reqs1 db).
Proof.
  revert db. induction reqs1 as [|r reqs1 IH]; intros db; [done|].
  simpl. rewrite IH, <- app_assoc. done.
Qed.

(** The record a creation request returned is among the created ones. *)
Lemma returned_review_created before e body after review :
  fst (post_reviews e body (run before empty_store)) = inr review →
  review ∈ created_reviews (before ++ POST_reviews e body :: after)
             empty_store.
Proof.
  intros Hret. rewrite created_reviews_app. apply elem_of_app. right.
  simpl. rewrite Hret. by left.
Qed.

Lemma returned_status_created before e body after status_obj :
  fst (post_status e body (run before empty_store)) = inr status_obj →
  status_obj ∈ created_status_checks (before ++ POST_status e body :: after)
                 empty_store.
Proof.
  intros Hret. rewrite created_status_checks_app. apply elem_of_app. right.
  simpl. rewrite Hret. by left.
Qed.

End lax.

End runtime.

End RoundTripFacts.

(* ===================================================================== *)
(** * The claims *)
(* ===================================================================== *)



(** C2 — A review payload whose rating is outside 1..5 (it does not read
    as an integer within 1..5), or whose name is empty or longer than 100
    characters, or whose comment is longer than 500 characters, fails with
    a [ValidationError] and leaves the store as it was; hence after any
    sequence of requests on an empty database every stored review is
    within the bounds of the data model. *)
Theorem invalid_review_rejected `{LaxInt} :
  (∀ (e : env) (db : store) (fields : gmap string json),
     out_of_bounds fields →
     ∃ loc, post_reviews e (JObj fields) db = (inl (ValidationError loc), db))
  ∧ (∀ reqs : list request,
       Forall (λ d, doc_in_bounds d = true)
         (reviews (run reqs empty_store))).
Proof.
  split.
  - intros e db fields Hbad. unfold post_reviews.
    destruct (PayloadFacts.model_validate_rejects fields Hbad) as [loc ->].
    by exists loc.
  - intros reqs. by apply PayloadFacts.run_in_bounds.
Qed.

Lemma invalid_review_rejected_witness :
  let H := no_conversion in
  let fields : gmap string json :=
    <["name" := JStr "Test"]> (<["rating" := JInt 6]> ∅) in
  out_of_bounds fields
  ∧ ∃ loc, post_reviews demo_env (JObj fields) empty_store
           = (inl (ValidationError loc), empty_store).
Proof.
  intros H fields.
  assert (out_of_bounds fields) as Hbad.
  { left. exists (JInt 6). split; [reflexivity|]. intros z [= <-]. lia. }
  split; [exact Hbad|].
  exact (proj1 (invalid_review_rejected (H := H)) demo_env empty_store
           fields Hbad).
Defined.

(** C3 — Listing by [rating_desc] returns the reviews by rating
    descending, and listing by [rating_asc] by rating ascending, in both
    cases newest-first among reviews of equal rating: after any sequence
    of requests on an empty database the listing is the first 1000 of a
    rearrangement of the created reviews that is sorted in that order.  In
    particular, five reviews with ratings 5, 4, 3, 5, 2 created in that
    order are listed by [rating_desc] with ratings 5, 5, 4, 3, 2, the
    fourth review before the first. *)
Theorem rating_sorts_tie_break_newest_first `{LaxInt} {iso : IsoExtensions} :
  (∀ reqs : list request,
     Forall clock_ok reqs →
     ∃ desc asc : list Review.t,
       get_reviews RATING_DESC (run reqs empty_store)
       = inr (Review.model_dump <$> take 1000 desc)
       ∧ desc ≡ₚ created_reviews reqs empty_store
       ∧ StronglySorted rating_desc_order desc
       ∧ get_reviews RATING_ASC (run reqs empty_store)
         = inr (Review.model_dump <$> take 1000 asc)
       ∧ asc ≡ₚ created_reviews reqs empty_store
       ∧ StronglySorted rating_asc_order asc)
  ∧ (∀ (e1 e2 e3 e4 e5 : env) (n1 n2 n3 n4 n5 : string),
       Forall (λ n, (1 ≤ Utf8.len n ≤ 100)%nat) [n1; n2; n3; n4; n5] →
       Forall (λ e, Datetime.datetime_ok (now e) = true) [e1; e2; e3; e4; e5] →
       Datetime.compare (now e1) (now e2) = Lt →
       Datetime.compare (now e2) (now e3) = Lt →
       Datetime.compare (now e3) (now e4) = Lt →
       Datetime.compare (now e4) (now e5) = Lt →
       get_reviews RATING_DESC
         (run (five_reviews e1 e2 e3 e4 e5 n1 n2 n3 n4 n5) empty_store)
       = inr (Review.model_dump <$>
                [Review.mk (uuid4 e4) n4 5 None (now e4);
                 Review.mk (uuid4 e1) n1 5 None (now e1);
                 Review.mk (uuid4 e2) n2 4 None (now e2);
                 Review.mk (uuid4 e3) n3 3 None (now e3);
                 Review.mk (uuid4 e5) n5 2 None (now e5)])).
Proof.
  split.
  - intros reqs Hclock.
    destruct (OrderFacts.sorted_listing RATING_DESC rating_desc_order
                (created_reviews reqs empty_store)
                OrderFacts.rating_desc_order_of_compare) as [Hp1 Hs1].
    destruct (OrderFacts.sorted_listing RATING_ASC rating_asc_order
                (created_reviews reqs empty_store)
                OrderFacts.rating_asc_order_of_compare) as [Hp2 Hs2].
    eexists _, _. split_and!; [|exact Hp1|exact Hs1| |exact Hp2|exact Hs2];
      by apply ListingFacts.get_reviews_run.
  - intros e1 e2 e3 e4 e5 n1 n2 n3 n4 n5 Hn He H12 H23 H34 H45.
    assert (Datetime.compare (now e1) (now e4) = Lt) as H14.
    { eapply (cmp_lt_trans _ DatetimeFacts.compare_order); [exact H12|].
      eapply (cmp_lt_trans _ DatetimeFacts.compare_order); eauto. }
    rewrite ListingFacts.get_reviews_run.
    + rewrite OrderFacts.five_reviews_created by done.
      unfold Mongo.sort_by, review_compare.
      cbn [foldr Mongo.insert_sorted Review.rating Review.created_at
           Z.compare Pos.compare Pos.compare_cont lex CompOpp].
      rewrite H14. reflexivity.
    + repeat (apply Forall_cons in He as [? He]).
      unfold five_reviews, review_request. repeat constructor; done.
Qed.

Lemma rating_sorts_tie_break_newest_first_witness :
  get_reviews (iso := common_format_only) RATING_DESC
    (run (H := no_conversion)
       (five_reviews (sample_env 1) (sample_env 2) (sample_env 3)
          (sample_env 4) (sample_env 5)
          "Marie Dubois" "John Smith" "Pierre Martin" "Sarah Johnson"
          "Antoine Leroy")
       empty_store)
  = inr (Review.model_dump <$>
           [Review.mk (uuid4 (sample_env 4)) "Sarah Johnson" 5 None
              (now (sample_env 4));
            Review.mk (uuid4 (sample_env 1)) "Marie Dubois" 5 None
              (now (sample_env 1));
            Review.mk (uuid4 (sample_env 2)) "John Smith" 4 None
              (now (sample_env 2));
            Review.mk (uuid4 (sample_env 3)) "Pierre Martin" 3 None
              (now (sample_env 3));
            Review.mk (uuid4 (sample_env 5)) "Antoine Leroy" 2 None
              (now (sample_env 5))]).
Proof.
  apply (proj2 (rating_sorts_tie_break_newest_first (H := no_conversion)
                  (iso := common_format_only)));
    try reflexivity.
  - repeat constructor; simpl; lia.
  - repeat constructor.
Defined.

(** C4 — The stats endpoint returns the arithmetic mean of all stored
    ratings, rounded to one decimal place, and the number of stored
    reviews: the single pass of the store's [$group] accumulators over
    the collection yields, after any sequence of requests that created a
    review, the mean (as a double) of the ratings of the created reviews
    rounded by [round(., 1)], and their count; the rounding returns the
    double of a decimal with one digit after the point that lies within
    one twentieth of its argument.  In particular, after five reviews
    with ratings 5, 4, 3, 5, 2 it returns [average_rating = 3.8] and
    [total_reviews = 5]. *)
Theorem stats_mean_and_count `{LaxInt} {srv : ServerArith} :
  (∀ reqs : list request,
     created_reviews reqs empty_store ≠ [] →
     get_review_stats (run reqs empty_store)
     = inr (ReviewStats.mk
              (mean_rating_1dp (created_reviews reqs empty_store))
              (Z.of_nat (length (created_reviews reqs empty_store)))))
  ∧ (∀ (e1 e2 e3 e4 e5 : env) (n1 n2 n3 n4 n5 : string),
       Forall (λ n, (1 ≤ Utf8.len n ≤ 100)%nat) [n1; n2; n3; n4; n5] →
       get_review_stats
         (run (five_reviews e1 e2 e3 e4 e5 n1 n2 n3 n4 n5) empty_store)
       = inr (ReviewStats.mk 3.8 5))
  ∧ (∀ (x : float) (s : bool) (m : positive) (e : Z),
       Prim2SF x = S754_finite s m e → e < -3 →
       ∃ tenths : Z,
         round1 x
         = (if s then PrimFloat.opp else id)
             (PrimFloat.div (Z2float tenths) (Z2float 10))
         ∧ 2 * Z.abs (10 * Z.pos m - tenths * 2 ^ (- e)) ≤ 2 ^ (- e)).
Proof.
  assert (∀ reqs : list request,
            created_reviews reqs empty_store ≠ [] →
            get_review_stats (run reqs empty_store)
            = inr (ReviewStats.mk
                     (mean_rating_1dp (created_reviews reqs empty_store))
                     (Z.of_nat (length (created_reviews reqs empty_store)))))
    as Hmean.
  { intros reqs Hne. apply ListingFacts.get_review_stats_of_documents;
      [apply ListingFacts.review_documents_run | done]. }
  split_and!; [exact Hmean| |exact RoundFacts.round1_nearest_tenth].
  intros e1 e2 e3 e4 e5 n1 n2 n3 n4 n5 Hn.
  rewrite Hmean; rewrite OrderFacts.five_reviews_created by done; [|done].
  vm_compute. reflexivity.
Qed.

Lemma stats_mean_and_count_witness :
  get_review_stats (srv := plain_mean)
    (run (H := no_conversion)
       (five_reviews (sample_env 1) (sample_env 2) (sample_env 3)
          (sample_env 4) (sample_env 5)
          "Marie Dubois" "John Smith" "Pierre Martin" "Sarah Johnson"
          "Antoine Leroy")
       empty_store)
  = inr (ReviewStats.mk 3.8 5).
Proof.
  apply (proj1 (proj2 (stats_mean_and_count (H := no_conversion)
                         (srv := plain_mean)))).
  repeat constructor; simpl; lia.
Defined.

(** C5 — When the review collection is empty, the stats endpoint returns
    [average_rating = 0.0] and [total_reviews = 0] (it neither fails nor
    returns an absent result), and the review listing returns an empty
    list, for every sort value and for the default. *)
Theorem empty_collection_stats_and_listing
  {iso : IsoExtensions} {srv : ServerArith}
  (checks : list doc) (sort : SortOrder) :
  get_review_stats (mk_store [] checks) = inr (ReviewStats.mk 0 0)
  ∧ get_reviews sort (mk_store [] checks) = inr []
  ∧ get_reviews_query None (mk_store [] checks) = inr [].
Proof. split_and!; reflexivity. Qed.

(** C6 — A [sort] query value outside [date_desc], [date_asc],
    [rating_desc], [rating_asc] fails with a [ValidationError] before the
    handler runs, and the outcome is not that of any sort order (there is
    no fall-back to the default); each of the four values selects its
    order; omitting the parameter is [date_desc], which lists the created
    reviews newest-first. *)
Theorem unknown_sort_rejected `{LaxInt} {iso : IsoExtensions} :
  (∀ (v : string) (db : store),
     v ∉ recognised_sorts →
     get_reviews_query (Some v) db = inl (ValidationError ["sort"])
     ∧ ∀ s : SortOrder, get_reviews_query (Some v) db ≠ get_reviews s db)
  ∧ (∀ (s : SortOrder) (db : store),
       get_reviews_query (Some (SortOrderEnum.value s)) db = get_reviews s db)
  ∧ (∀ db : store, get_reviews_query None db = get_reviews DATE_DESC db)
  ∧ (∀ reqs : list request,
       Forall clock_ok reqs →
       ∃ listed : list Review.t,
         get_reviews_query None (run reqs empty_store)
         = inr (Review.model_dump <$> take 1000 listed)
         ∧ listed ≡ₚ created_reviews reqs empty_store
         ∧ StronglySorted newest_first listed).
Proof.
  split_and!.
  - intros v db Hv. unfold get_reviews_query.
    rewrite CapFacts.of_value_unrecognised by done. split; [done|].
    intros s Heq. symmetry in Heq.
    by apply CapFacts.get_reviews_raises in Heq.
  - by intros [] db.
  - done.
  - intros reqs Hclock.
    destruct (OrderFacts.sorted_listing DATE_DESC newest_first
                (created_reviews reqs empty_store)
                OrderFacts.newest_first_of_compare) as [Hp Hs].
    eexists. split_and!; [|exact Hp|exact Hs].
    by apply ListingFacts.get_reviews_run.
Qed.

Lemma unknown_sort_rejected_witness :
  ("rating" ∉ recognised_sorts)
  ∧ get_reviews_query (iso := common_format_only) (Some "rating") empty_store
    = inl (ValidationError ["sort"]).
Proof.
  assert ("rating" ∉ recognised_sorts) as Hv.
  { unfold recognised_sorts. rewrite !not_elem_of_cons, elem_of_nil.
    repeat split; (discriminate || auto). }
  split; [exact Hv|].
  exact (proj1 (proj1 (unknown_sort_rejected (H := no_conversion)
                         (iso := common_format_only))
                  "rating" empty_store Hv)).
Defined.

(** C7 — For every store state, the review listing and the status listing
    return at most 1000 records, however many are stored; after any
    sequence of requests on an empty database they return exactly the
    smaller of 1000 and the number of records created. *)
Theorem listings_capped_at_1000 `{LaxInt} {iso : IsoExtensions} :
  (∀ (db : store) (sort : SortOrder) (l : list doc),
     get_reviews sort db = inr l → (length l ≤ 1000)%nat)
  ∧ (∀ (db : store) (l : list doc),
       get_status_checks db = inr l → (length l ≤ 1000)%nat)
  ∧ (∀ (reqs : list request) (sort : SortOrder),
       Forall clock_ok reqs →
       ∃ l l' : list doc,
         get_reviews sort (run reqs empty_store) = inr l
         ∧ length l
           = Nat.min 1000 (length (created_reviews reqs empty_store))
         ∧ get_status_checks (run reqs empty_store) = inr l'
         ∧ length l'
           = Nat.min 1000 (length (created_status_checks reqs empty_store))).
Proof.
  split_and!.
  - intros db sort l. apply CapFacts.get_reviews_length.
  - intros db l. apply CapFacts.get_status_checks_length.
  - intros reqs sort Hclock. eexists _, _. split_and!.
    + by apply ListingFacts.get_reviews_run.
    + by rewrite length_fmap, length_take, SortFacts.sort_by_length.
    + by apply ListingFacts.get_status_checks_run.
    + by rewrite length_fmap, length_take.
Qed.

Lemma listings_capped_at_1000_witness :
  get_reviews (iso := common_format_only) RATING_DESC crowded_store
  = inr (replicate 1000 (<["created_at" := PNone]> ∅))
  ∧ (length (replicate 1000 (<["created_at" := PNone]> ∅ : doc)) ≤ 1000)%nat
  ∧ get_status_checks (iso := common_format_only) crowded_store
    = inr (replicate 1000 (<["timestamp" := PNone]> ∅))
  ∧ (length (replicate 1000 (<["timestamp" := PNone]> ∅ : doc)) ≤ 1000)%nat.
Proof.
  assert (get_reviews (iso := common_format_only) RATING_DESC crowded_store
          = inr (replicate 1000 (<["created_at" := PNone]> ∅))) as Hr
    by reflexivity.
  assert (get_status_checks (iso := common_format_only) crowded_store
          = inr (replicate 1000 (<["timestamp" := PNone]> ∅))) as Hs
    by reflexivity.
  pose proof (listings_capped_at_1000 (H := no_conversion)
                (iso := common_format_only)) as (Hcap & Hcap' & _).
  split_and!; [exact Hr | exact (Hcap _ _ _ Hr) | exact Hs | exact (Hcap' _ _ Hs)].
Defined.

(** C8 — The status-creation endpoint creates a status check exactly when
    the body is an object whose [client_name] is a string, the empty
    string included: no bound at all is enforced on it.  Any other body
    fails with a [ValidationError] and leaves the store as it was. *)
Theorem status_created_iff_client_name_is_str
  (e : env) (body : json) (db : store) :
  (status_created e body db ↔ client_name_is_str body)
  ∧ (¬ client_name_is_str body
     ↔ ∃ loc, post_status e body db = (inl (ValidationError loc), db)).
Proof.
  unfold status_created, client_name_is_str.
  destruct body as [| | | | |items|fields];
    try (split; split;
         [done | by intros (? & ? & ? & _) | by eexists
          | by intros _ (? & ? & ? & _)]).
  destruct (fields !! "client_name") as [v|] eqn:Hv.
  - destruct v as [| | | |s| |];
      try (unfold post_status, StatusCheckCreate.model_validate;
           rewrite Hv; split; split;
           [done | intros (? & ? & [= <-] & ?); congruence | by eexists
            | intros _ (? & ? & [= <-] & ?); congruence]).
    rewrite (PayloadFacts.post_status_accepts e db fields s Hv).
    split; split; simpl.
    + intros _. by exists fields, s.
    + done.
    + intros Hnot. exfalso. apply Hnot. by exists fields, s.
    + by intros (loc & ?).
  - unfold post_status, StatusCheckCreate.model_validate. rewrite Hv.
    split; split;
      [done | intros (? & ? & [= <-] & ?); congruence | by eexists
       | intros _ (? & ? & [= <-] & ?); congruence].
Qed.

(** C8, with [client_name] required to be non-empty: an empty
    [client_name] creates a status check all the same. *)
Lemma empty_client_name_creates_status :
  status_created demo_env (JObj (<["client_name" := JStr ""]> ∅)) empty_store
  ∧ ¬ client_name_is_nonempty_str (JObj (<["client_name" := JStr ""]> ∅)).
Proof.
  split; [exact I|].
  intros (fields & s & [= <-] & Hs & Hne). apply Hne.
  rewrite lookup_insert_eq in Hs. congruence.
Qed.

(** C9 — Creation and listing round-trip on timestamps.
    [fromisoformat] undoes [isoformat] on every instant the clock can
    read; hence, after any sequence of requests on an empty database, the
    review listing returns the dumps of records that creation requests
    returned — [created_at] included — and it returns the record of a
    given creation request whenever no more than 1000 reviews exist; the
    same holds for status checks and [timestamp]. *)
Theorem listing_round_trips_timestamps `{LaxInt} {iso : IsoExtensions} :
  (∀ t : datetime,
     Datetime.datetime_ok t = true →
     Datetime.fromisoformat (Datetime.isoformat t) = Some t)
  ∧ (∀ (before after : list request) (e : env) (body : json)
       (sort : SortOrder) (review : Review.t),
       let reqs := before ++ POST_reviews e body :: after in
       Forall clock_ok reqs →
       fst (post_reviews e body (run before empty_store)) = inr review →
       ∃ listed : list Review.t,
         get_reviews sort (run reqs empty_store)
         = inr (Review.model_dump <$> listed)
         ∧ listed ⊆ created_reviews reqs empty_store
         ∧ ((length (created_reviews reqs empty_store) ≤ 1000)%nat →
            review ∈ listed))
  ∧ (∀ (before after : list request) (e : env) (body : json)
       (status_obj : StatusCheck.t),
       let reqs := before ++ POST_status e body :: after in
       Forall clock_ok reqs →
       fst (post_status e body (run before empty_store)) = inr status_obj →
       ∃ listed : list StatusCheck.t,
         get_status_checks (run reqs empty_store)
         = inr (StatusCheck.model_dump <$> listed)
         ∧ listed ⊆ created_status_checks reqs empty_store
         ∧ ((length (created_status_checks reqs empty_store) ≤ 1000)%nat →
            status_obj ∈ listed)).
Proof.
  split_and!.
  - apply DatetimeFacts.fromisoformat_isoformat.
  - intros before after e body sort review reqs Hclock Hret.
    eexists. split_and!.
    + by apply ListingFacts.get_reviews_run.
    + etrans; [apply subseteq_take|].
      intros r. by rewrite SortFacts.sort_by_elem_of.
    + intros Hlen. rewrite take_ge
        by (by rewrite SortFacts.sort_by_length).
      apply SortFacts.sort_by_elem_of.
      by apply RoundTripFacts.returned_review_created.
  - intros before after e body status_obj reqs Hclock Hret.
    eexists. split_and!.
    + by apply ListingFacts.get_status_checks_run.
    + apply subseteq_take.
    + intros Hlen. rewrite take_ge by done.
      by apply RoundTripFacts.returned_status_created.
Qed.

Lemma listing_round_trips_timestamps_witness :
  Datetime.datetime_ok (now demo_env) = true
  ∧ Datetime.fromisoformat (iso := common_format_only)
      (Datetime.isoformat (now demo_env))
    = Some (now demo_env).
Proof.
  split; [reflexivity|].
  apply (proj1 (listing_round_trips_timestamps (H := no_conversion)
                  (iso := common_format_only))).
  reflexivity.
Defined.

(** C10 — The status listing indexes [check['timestamp']] directly: its
    loop body raises [KeyError] on a document without that key, so the
    listing fails whenever a document it fetches lacks the key, with that
    [KeyError] when the documents before it parse; the review listing
    reads [review.get('created_at')]: its loop body leaves a document
    without the key alone, and the listing of a collection whose
    documents all lack it returns them. *)
Theorem status_listing_needs_timestamp_key {iso : IsoExtensions} :
  (∀ check : doc,
     check !! "timestamp" = None →
     parse_timestamp check = inl (KeyError "timestamp"))
  ∧ (∀ (db : store) (check : doc),
       check ∈ take 1000 (status_checks db) →
       check !! "timestamp" = None →
       ¬ returned (get_status_checks db))
  ∧ (∀ (db : store) (before after : list doc) (check : doc),
       status_checks db = before ++ check :: after →
       (length before < 1000)%nat →
       check !! "timestamp" = None →
       (∀ d, d ∈ before → returned (parse_timestamp (delete "_id" d))) →
       get_status_checks db = inl (KeyError "timestamp"))
  ∧ (∀ review : doc,
       review !! "created_at" = None → parse_created_at review = inr review)
  ∧ (∀ (db : store) (sort : SortOrder),
       (∀ d, d ∈ reviews db → d !! "created_at" = None) →
       get_reviews sort db
       = inr (take 1000
                (Mongo.sort_by (Mongo.sort_compare (sort_options sort))
                   (Mongo.find_all_no_id (reviews db))))).
Proof.
  split_and!.
  - apply RoundTripFacts.parse_timestamp_missing.
  - intros db check Hin Hmissing Hret.
    unfold get_status_checks, Mongo.to_list, Mongo.find_all_no_id in Hret.
    destruct (for_each parse_timestamp _) as [|l] eqn:Hl; [done|].
    assert (delete "_id" check ∈ take 1000 (delete "_id" <$> status_checks db))
      as Hin' by (rewrite <- fmap_take; by apply list_elem_of_fmap_2).
    pose proof (RoundTripFacts.for_each_inr _ _ _ _ Hl Hin') as Hok.
    rewrite RoundTripFacts.parse_timestamp_missing in Hok; [done|].
    by rewrite lookup_delete_ne.
  - intros db before after check Hcoll Hlen Hmissing Hbefore.
    unfold get_status_checks, Mongo.to_list, Mongo.find_all_no_id.
    rewrite Hcoll, fmap_app, fmap_cons.
    rewrite RoundTripFacts.take_middle by (by rewrite length_fmap).
    apply for_each_raises.
    + intros d (d' & -> & Hd')%list_elem_of_fmap. by apply Hbefore.
    + apply RoundTripFacts.parse_timestamp_missing.
      by rewrite lookup_delete_ne.
  - apply RoundTripFacts.parse_created_at_missing.
  - intros db sort Hmissing. unfold get_reviews, Mongo.to_list.
    apply RoundTripFacts.for_each_id. intros d Hd.
    apply RoundTripFacts.parse_created_at_missing.
    apply subseteq_take in Hd.
    apply SortFacts.sort_by_elem_of in Hd.
    apply list_elem_of_fmap in Hd as (d' & -> & Hd').
    rewrite lookup_delete_ne by done. by apply Hmissing.
Qed.

Lemma status_listing_needs_timestamp_key_witness :
  get_status_checks (iso := common_format_only) keyless_store
  = inl (KeyError "timestamp")
  ∧ get_reviews (iso := common_format_only) DATE_DESC keyless_store
    = inr (reviews keyless_store).
Proof.
  pose proof (status_listing_needs_timestamp_key (iso := common_format_only))
    as (_ & _ & Hstatus & _ & Hreviews).
  split.
  - apply (Hstatus keyless_store [] [] (<["client_name" := PStr "probe"]> ∅));
      [reflexivity | simpl; lia | reflexivity |].
    intros d Hd. by apply elem_of_nil in Hd.
  - rewrite (Hreviews keyless_store DATE_DESC); [reflexivity|].
    intros d Hd. apply elem_of_cons in Hd as [->|Hd]; [reflexivity|].
    by apply elem_of_nil in Hd.
Defined.

(* ===================================================================== *)
(** * Further properties of the handlers *)
(* ===================================================================== *)

(** ** Validation, field by field *)

Module ValidationFacts.
Import PayloadFacts.

Lemma validate_name_iff fields n :
  ReviewCreate.validate_name fields = Some n
  ↔ fields !! "name" = Some (JStr n) ∧ (1 ≤ Utf8.len n ≤ 100)%nat.
Proof.
  unfold ReviewCreate.validate_name. rewrite <- length_between_iff.
  destruct (fields !! "name") as [[]|]; simpl;
    try (split; [done | by intros [[=] _]]).
  destruct (Pydantic.length_between 1 100 s) eqn:Hlen.
  - split; [by intros [= <-] | by intros [[= <-] _]].
  - split; [done | intros [[= <-] ?]; congruence].
Qed.

Lemma validate_comment_iff fields c :
  ReviewCreate.validate_comment fields = Some c
  ↔ carries_comment fields c ∧ (∀ s, c = Some s → (Utf8.len s ≤ 500)%nat).
Proof.
  unfold ReviewCreate.validate_comment, carries_comment.
  destruct c as [c|].
  - destruct (fields !! "comment") as [[| | | |s| |]|]; simpl;
      try (split; [done | by intros [[=] _]]).
    destruct (Pydantic.length_between 0 500 s) eqn:Hlen.
    + apply length_between_iff in Hlen. split.
      * intros [= <-]. split; [done|]. intros ? [= <-]. lia.
      * by intros [[= <-] _].
    + split; [done|]. intros [[= <-] Hb]. specialize (Hb s eq_refl).
      rewrite (proj2 (length_between_iff 0 500 s)) in Hlen; [done|lia].
  - destruct (fields !! "comment") as [[| | | |s| |]|]; simpl;
      try (split; [done | by intros [[[=]|[=]] _]]).
    + split; [intros _; split; [by right | done] | done].
    + destruct (Pydantic.length_between 0 500 s);
        (split; [done | by intros [[[=]|[=]] _]]).
    + split; [intros _; split; [by left | done] | done].
Qed.

Section lax.
Context `{LaxInt}.

Lemma validate_rating_iff fields r :
  ReviewCreate.validate_rating fields = Some r
  ↔ (∃ v, fields !! "rating" = Some v ∧ Pydantic.validate_int v = Some r)
    ∧ 1 ≤ r ≤ 5.
Proof.
  unfold ReviewCreate.validate_rating. rewrite <- in_range_iff.
  destruct (fields !! "rating") as [v|]; simpl;
    [|split; [done | by intros [(? & [=] & _) _]]].
  destruct (Pydantic.validate_int v) as [z|] eqn:Hv; simpl.
  - destruct (Pydantic.in_range 1 5 z) eqn:Hz.
    + split; [intros [= <-]; eauto|].
      intros [(? & [= <-] & ?) _]. congruence.
    + split; [done|]. intros [(? & [= <-] & ?) ?]. congruence.
  - split; [done|]. intros [(? & [= <-] & ?) _]. congruence.
Qed.

Lemma model_validate_iff body input :
  ReviewCreate.model_validate body = inr input
  ↔ ∃ fields, body = JObj fields
              ∧ valid_review_fields fields (ReviewCreate.name input)
                  (ReviewCreate.rating input) (ReviewCreate.comment input).
Proof.
  unfold valid_review_fields. split.
  - unfold ReviewCreate.model_validate. destruct body; try done.
    destruct (ReviewCreate.validate_name fields) as [n|] eqn:Hn;
      destruct (ReviewCreate.validate_rating fields) as [z|] eqn:Hz;
      destruct (ReviewCreate.validate_comment fields) as [c|] eqn:Hc;
      try done.
    intros [= <-]. exists fields. simpl.
    apply validate_name_iff in Hn as [? ?].
    apply validate_rating_iff in Hz as [? ?].
    apply validate_comment_iff in Hc as [? ?]. done.
  - intros (fields & -> & Hn & Hlen & Hr & Hrange & Hc & Hclen).
    unfold ReviewCreate.model_validate.
    rewrite (proj2 (validate_name_iff fields _) (conj Hn Hlen)).
    rewrite (proj2 (validate_rating_iff fields _) (conj Hr Hrange)).
    rewrite (proj2 (validate_comment_iff fields _) (conj Hc Hclen)).
    by destruct input.
Qed.

End lax.

End ValidationFacts.

(** X1 — A review request creates a review exactly when its body is an
    object whose name is a string of 1 to 100 characters, whose rating
    reads as an integer from 1 to 5 and whose comment is absent, null or a
    string of at most 500 characters; the record then carries these three
    values, and its [id] and [created_at] are always the identifier and
    the clock reading of the request, whatever else the body holds. *)
Theorem review_created_iff `{LaxInt}
  (e : env) (body : json) (db : store) (review : Review.t) :
  fst (post_reviews e body db) = inr review
  ↔ ∃ fields, body = JObj fields
              ∧ valid_review_fields fields (Review.name review)
                  (Review.rating review) (Review.comment review)
              ∧ Review.id review = uuid4 e
              ∧ Review.created_at review = now e.
Proof.
  unfold post_reviews. split.
  - destruct (ReviewCreate.model_validate body) as [|input] eqn:Hv; [done|].
    apply ValidationFacts.model_validate_iff in Hv as (fields & -> & Hvalid).
    rewrite CreateFacts.create_review_ok
      by (apply PayloadFacts.in_range_iff; apply Hvalid).
    intros [= <-]. by exists fields.
  - intros (fields & -> & Hvalid & Hid & Ht).
    rewrite (proj2 (ValidationFacts.model_validate_iff (JObj fields)
               (ReviewCreate.mk (Review.name review) (Review.rating review)
                  (Review.comment review)))) by by exists fields.
    rewrite CreateFacts.create_review_ok
      by (apply PayloadFacts.in_range_iff; apply Hvalid).
    simpl. destruct review; simpl in *. by subst.
Qed.

(** ** The store only grows *)

(** X2 — No request sequence changes or removes a stored document: each
    collection before is a prefix of the collection after, and it grows by
    exactly one document per record created (a repeated submission is
    stored again, never merged). *)
Theorem store_append_only `{LaxInt} (reqs : list request) (db : store) :
  reviews db `prefix_of` reviews (run reqs db)
  ∧ status_checks db `prefix_of` status_checks (run reqs db)
  ∧ length (reviews (run reqs db))
    = (length (reviews db) + length (created_reviews reqs db))%nat
  ∧ length (status_checks (run reqs db))
    = (length (status_checks db)
       + length (created_status_checks reqs db))%nat.
Proof.
  destruct (TraceFacts.run_reviews reqs db) as (oids & -> & Hlen).
  destruct (TraceFacts.run_status_checks reqs db) as (oids' & -> & Hlen').
  split_and!.
  - by eexists.
  - by eexists.
  - rewrite length_app, length_zip_with. lia.
  - rewrite length_app, length_zip_with. lia.
Qed.

(** ** What a listing returns, on any store *)

Module ViewFacts.

Section runtime.
Context {iso : IsoExtensions} {srv : ServerArith}.

Lemma for_each_Forall2 {A B : Type} (body : A → result B) l l' :
  for_each body l = inr l' → Forall2 (λ x y, body x = inr y) l l'.
Proof.
  revert l'. induction l as [|x l IH]; intros l'; simpl.
  - intros [= <-]. constructor.
  - destruct (body x) as [|y] eqn:Hx; [done|].
    destruct (for_each body l) as [|ys]; [done|].
    intros [= <-]. constructor; [done | by apply IH].
Qed.

Lemma listed_from_parsed key (d0 : doc) s t :
  key ≠ "_id" → d0 !! key = Some (PStr s) →
  Datetime.fromisoformat s = Some t →
  listed_from key d0 (<[key := PDatetime t]> (delete "_id" d0)).
Proof.
  intros Hkey Hs Ht. unfold listed_from. rewrite Hs. split_and!.
  - by rewrite lookup_insert_ne, lookup_delete_eq.
  - intros k Hk Hk'. by rewrite lookup_insert_ne, lookup_delete_ne.
  - exists t. by rewrite lookup_insert_eq.
Qed.

Lemma listed_from_kept key (d0 : doc) :
  key ≠ "_id" → (∀ s, d0 !! key ≠ Some (PStr s)) →
  listed_from key d0 (delete "_id" d0).
Proof.
  intros Hkey Hs. unfold listed_from. split_and!.
  - by rewrite lookup_delete_eq.
  - intros k Hk Hk'. by rewrite lookup_delete_ne.
  - rewrite lookup_delete_ne by done.
    destruct (d0 !! key) as [[]|] eqn:Hd; try done. by destruct (Hs s).
Qed.

Lemma parse_created_at_view (d0 d : doc) :
  parse_created_at (delete "_id" d0) = inr d → listed_from "created_at" d0 d.
Proof.
  unfold parse_created_at. rewrite lookup_delete_ne by done.
  destruct (d0 !! "created_at") as [v|] eqn:Hv.
  - destruct v as [| | | |s| |];
      try (intros [= <-]; apply listed_from_kept; [done|];
           intros s'; by rewrite Hv).
    destruct (Datetime.fromisoformat s) as [t|] eqn:Ht; [|done].
    intros [= <-]. by apply (listed_from_parsed _ _ s).
  - intros [= <-]. apply listed_from_kept; [done|]. intros s'. by rewrite Hv.
Qed.

Lemma parse_timestamp_view (d0 d : doc) :
  parse_timestamp (delete "_id" d0) = inr d →
  is_Some (d0 !! "timestamp") ∧ listed_from "timestamp" d0 d.
Proof.
  unfold parse_timestamp. rewrite lookup_delete_ne by done.
  destruct (d0 !! "timestamp") as [v|] eqn:Hv; [|done].
  intros Hd. split; [done|].
  destruct v as [| | | |s| |];
    try (simplify_eq; apply listed_from_kept; [done|];
         intros s'; by rewrite Hv).
  destruct (Datetime.fromisoformat s) as [t|] eqn:Ht; [|done].
  simplify_eq. by apply (listed_from_parsed _ _ s).
Qed.

Lemma parse_created_at_inl (d : doc) e :
  parse_created_at d = inl e ↔ e = ValueError ∧ unparsable "created_at" d.
Proof.
  unfold parse_created_at, unparsable. split.
  - destruct (d !! "created_at") as [[| | | |s| |]|]; try done.
    destruct (Datetime.fromisoformat s) eqn:Ht; [done|].
    intros [= <-]. split; [done|]. by exists s.
  - intros [-> (s & -> & ->)]. done.
Qed.

End runtime.

End ViewFacts.

(** X3 — On every store, when the handler of the review listing returns,
    it returns the first 1000 of a rearrangement of the stored documents,
    each without its [_id], with [created_at] parsed when it was stored as
    a string and every other field exactly as stored; so it returns
    exactly the smaller of 1000 and the number of stored documents.  (The
    handler's value is the subject; the route then validates it against
    its response model.) *)
Theorem review_listing_view {iso : IsoExtensions}
  (db : store) (sort : SortOrder) (l : list doc) :
  get_reviews sort db = inr l →
  ∃ fetched : list doc,
    fetched ≡ₚ reviews db
    ∧ Forall2 (listed_from "created_at") (take 1000 fetched) l
    ∧ length l = Nat.min 1000 (length (reviews db)).
Proof.
  unfold get_reviews, Mongo.to_list, Mongo.find_all_no_id. intros Hl.
  set (cmp := λ a b : doc,
         Mongo.sort_compare (sort_options sort)
           (delete "_id" a) (delete "_id" b)).
  rewrite (SortFacts.sort_by_fmap (delete "_id") _ cmp) in Hl by done.
  rewrite <- fmap_take in Hl.
  exists (Mongo.sort_by cmp (reviews db)).
  assert (Forall2 (listed_from "created_at")
            (take 1000 (Mongo.sort_by cmp (reviews db))) l) as Hview.
  { apply ViewFacts.for_each_Forall2, Forall2_fmap_l in Hl.
    eapply Forall2_impl; [exact Hl|].
    intros d0 d. apply ViewFacts.parse_created_at_view. }
  split_and!; [apply SortFacts.sort_by_Permutation | done |].
  rewrite <- (Forall2_length _ _ _ Hview), length_take.
  by rewrite SortFacts.sort_by_length.
Qed.

Lemma review_listing_view_witness :
  get_reviews (iso := common_format_only) RATING_DESC foreign_store
  = inr foreign_reviews_listed
  ∧ ∃ fetched : list doc,
      fetched ≡ₚ reviews foreign_store
      ∧ Forall2 (listed_from (iso := common_format_only) "created_at")
          (take 1000 fetched) foreign_reviews_listed
      ∧ length foreign_reviews_listed
        = Nat.min 1000 (length (reviews foreign_store)).
Proof.
  assert (get_reviews (iso := common_format_only) RATING_DESC foreign_store
          = inr foreign_reviews_listed) as Hl by reflexivity.
  split; [exact Hl|].
  exact (review_listing_view (iso := common_format_only) foreign_store
           RATING_DESC foreign_reviews_listed Hl).
Defined.

(** X4 — On every store, when the handler of the status listing
    returns, it returns the first 1000 stored documents in natural
    (insertion) order, position by position: each had a [timestamp], and
    comes back without its [_id], with the timestamp parsed when it was a
    string and every other field as stored.  (The handler's value is the
    subject; the route then validates it against its response model.) *)
Theorem status_listing_view {iso : IsoExtensions}
  (db : store) (l : list doc) :
  get_status_checks db = inr l →
  Forall2 (λ d0 d, is_Some (d0 !! "timestamp") ∧ listed_from "timestamp" d0 d)
    (take 1000 (status_checks db)) l.
Proof.
  unfold get_status_checks, Mongo.to_list, Mongo.find_all_no_id.
  rewrite <- fmap_take. intros Hl.
  apply ViewFacts.for_each_Forall2, Forall2_fmap_l in Hl.
  eapply Forall2_impl; [exact Hl|].
  intros d0 d. apply ViewFacts.parse_timestamp_view.
Qed.

Lemma status_listing_view_witness :
  get_status_checks (iso := common_format_only) foreign_store
  = inr foreign_status_listed
  ∧ Forall2 (λ d0 d, is_Some (d0 !! "timestamp")
                     ∧ listed_from (iso := common_format_only) "timestamp" d0 d)
      (take 1000 (status_checks foreign_store)) foreign_status_listed.
Proof.
  assert (get_status_checks (iso := common_format_only) foreign_store
          = inr foreign_status_listed) as Hl by reflexivity.
  split; [exact Hl|].
  exact (status_listing_view (iso := common_format_only) foreign_store
           foreign_status_listed Hl).
Defined.

(** X5 — The handler of the review listing raises nothing but the
    [ValueError] of [fromisoformat], and only because some stored
    document carries a [created_at] string that [fromisoformat] rejects;
    with at most 1000 documents stored, one such document makes the
    handler raise, whatever the sort order.  Strings in the format every
    release reads — a date alone, a naive datetime, an offset other than
    UTC — are never the cause. *)
Theorem review_listing_fails_on_bad_date {iso : IsoExtensions} :
  (∀ (db : store) (sort : SortOrder) (e : exception),
     get_reviews sort db = inl e →
     e = ValueError ∧ ∃ d0, d0 ∈ reviews db ∧ unparsable "created_at" d0)
  ∧ (∀ (db : store) (sort : SortOrder) (d0 : doc),
       (length (reviews db) ≤ 1000)%nat →
       d0 ∈ reviews db → unparsable "created_at" d0 →
       get_reviews sort db = inl ValueError)
  ∧ (∀ (d : doc) (s : string),
       d !! "created_at" = Some (PStr s) →
       is_Some (Datetime.fromisoformat_common s) →
       ¬ unparsable "created_at" d).
Proof.
  split_and!.
  - intros db sort e Hl. split; [by eapply CapFacts.get_reviews_raises|].
    unfold get_reviews, Mongo.to_list, Mongo.find_all_no_id in Hl.
    apply CapFacts.for_each_inl in Hl as (d & Hd & Hraise).
    apply subseteq_take, SortFacts.sort_by_elem_of in Hd.
    apply list_elem_of_fmap in Hd as (d0 & -> & Hd0).
    exists d0. split; [done|].
    apply ViewFacts.parse_created_at_inl in Hraise as [_ (s & Hs & Ht)].
    exists s. by rewrite lookup_delete_ne in Hs.
  - intros db sort d0 Hlen Hd0 (s & Hs & Ht).
    destruct (get_reviews sort db) as [e|l] eqn:Hl.
    { f_equal. by eapply CapFacts.get_reviews_raises. }
    exfalso. unfold get_reviews, Mongo.to_list, Mongo.find_all_no_id in Hl.
    assert (delete "_id" d0
            ∈ take 1000
                (Mongo.sort_by (Mongo.sort_compare (sort_options sort))
                   (delete "_id" <$> reviews db))) as Hin.
    { rewrite take_ge
        by (by rewrite SortFacts.sort_by_length, length_fmap).
      apply SortFacts.sort_by_elem_of. by apply list_elem_of_fmap_2. }
    pose proof (RoundTripFacts.for_each_inr _ _ _ _ Hl Hin) as Hret.
    unfold parse_created_at in Hret.
    rewrite lookup_delete_ne, Hs, Ht in Hret by done. done.
  - intros d s Hs [t Ht] (s' & Hs' & Hnone).
    rewrite Hs in Hs'. injection Hs' as <-.
    unfold Datetime.fromisoformat in Hnone. by rewrite Ht in Hnone.
Qed.

Lemma review_listing_fails_on_bad_date_witness :
  get_reviews (iso := common_format_only) RATING_ASC broken_store
  = inl ValueError.
Proof.
  apply (proj1 (proj2 (review_listing_fails_on_bad_date
                         (iso := common_format_only)))
           broken_store RATING_ASC
           (<["_id" := PObjectId 1]> (<["name" := PStr "Marie Dubois"]>
            (<["created_at" := PStr "yesterday"]> ∅)))).
  - simpl. lia.
  - by left.
  - by exists "yesterday".
Defined.

(** ** The two date orders *)

Module DateOrderFacts.
Import DatetimeFacts SortFacts ListingFacts.

Section runtime.
Context {iso : IsoExtensions} {srv : ServerArith}.

Lemma StronglySorted_reverse {A : Type} (R : relation A) l :
  StronglySorted R l → StronglySorted (flip R) (reverse l).
Proof.
  induction 1 as [|x l Hs IH Hall]; [constructor|].
  rewrite reverse_cons. apply StronglySorted_app_2; [|done|repeat constructor].
  intros y z Hy ->%list_elem_of_singleton.
  rewrite Forall_forall in Hall. apply Hall. by apply elem_of_reverse.
Qed.

Lemma NoDup_fmap_eq {A B : Type} (f : A → B) l a b :
  NoDup (f <$> l) → a ∈ l → b ∈ l → f a = f b → a = b.
Proof.
  induction l as [|x l IH]; intros Hnd Ha Hb Hab; [by apply elem_of_nil in Ha|].
  rewrite fmap_cons in Hnd. apply NoDup_cons in Hnd as [Hx Hnd].
  apply elem_of_cons in Ha as [->|Ha]; apply elem_of_cons in Hb as [->|Hb].
  - done.
  - destruct Hx. rewrite Hab. by apply list_elem_of_fmap_2.
  - destruct Hx. rewrite <- Hab. by apply list_elem_of_fmap_2.
  - by apply IH.
Qed.

(** Newest-first is oldest-first read backwards. *)
Lemma date_desc_flip a b :
  cmp_le (review_compare DATE_DESC) a b ↔ cmp_le (review_compare DATE_ASC) b a.
Proof.
  unfold cmp_le, review_compare.
  rewrite (cmp_antisym _ compare_order (Review.created_at b)
             (Review.created_at a)). done.
Qed.

(** With pairwise distinct creation instants, sorting newest-first is
    the reverse of sorting oldest-first. *)
Lemma sort_date_desc_reverse (rs : list Review.t) :
  Forall review_valid rs →
  NoDup (Review.created_at <$> rs) →
  Mongo.sort_by (review_compare DATE_DESC) rs
  = reverse (Mongo.sort_by (review_compare DATE_ASC) rs).
Proof.
  intros Hvalid Hnd. rewrite Forall_forall in Hvalid.
  apply (StronglySorted_unique_strong (cmp_le (review_compare DATE_DESC))).
  - intros a b Ha Hb Hab Hba.
    apply (proj1 (sort_by_elem_of _ _ _)) in Ha.
    apply (proj1 (elem_of_reverse _ _)), (proj1 (sort_by_elem_of _ _ _)) in Hb.
    apply (NoDup_fmap_eq Review.created_at rs a b Hnd Ha Hb).
    apply compare_eq; [apply (Hvalid a Ha) | apply (Hvalid b Hb) |].
    unfold cmp_le, review_compare in Hab, Hba.
    rewrite (cmp_antisym _ compare_order (Review.created_at b)
               (Review.created_at a)) in Hba.
    by destruct (Datetime.compare (Review.created_at a) (Review.created_at b)).
  - apply sort_by_StronglySorted, review_compare_order.
  - eapply OrderFacts.StronglySorted_mono;
      [|apply StronglySorted_reverse, sort_by_StronglySorted,
          (review_compare_order DATE_ASC)].
    intros a b Hab. by apply date_desc_flip.
  - by rewrite reverse_Permutation, !sort_by_Permutation.
Qed.

End runtime.

End DateOrderFacts.

(** X6 — Listing by [date_asc] returns the created reviews oldest-first
    (the first 1000 of a rearrangement sorted by creation time); and when
    no two reviews share a creation instant and at most 1000 exist, the
    [date_desc] listing is the [date_asc] listing read backwards. *)
Theorem date_sorts_chronological `{LaxInt} {iso : IsoExtensions} :
  (∀ reqs : list request,
     Forall clock_ok reqs →
     ∃ asc : list Review.t,
       get_reviews DATE_ASC (run reqs empty_store)
       = inr (Review.model_dump <$> take 1000 asc)
       ∧ asc ≡ₚ created_reviews reqs empty_store
       ∧ StronglySorted oldest_first asc)
  ∧ (∀ reqs : list request,
       Forall clock_ok reqs →
       NoDup (Review.created_at <$> created_reviews reqs empty_store) →
       (length (created_reviews reqs empty_store) ≤ 1000)%nat →
       ∃ listed : list Review.t,
         get_reviews DATE_ASC (run reqs empty_store)
         = inr (Review.model_dump <$> listed)
         ∧ get_reviews DATE_DESC (run reqs empty_store)
           = inr (Review.model_dump <$> reverse listed)).
Proof.
  split.
  - intros reqs Hclock.
    destruct (OrderFacts.sorted_listing DATE_ASC oldest_first
                (created_reviews reqs empty_store)) as [Hp Hs]; [done|].
    eexists. split_and!; [|exact Hp|exact Hs].
    by apply ListingFacts.get_reviews_run.
  - intros reqs Hclock Hnd Hlen.
    exists (Mongo.sort_by (review_compare DATE_ASC)
              (created_reviews reqs empty_store)).
    rewrite !ListingFacts.get_reviews_run by done.
    rewrite !take_ge by (by rewrite SortFacts.sort_by_length).
    rewrite DateOrderFacts.sort_date_desc_reverse; [done| |done].
    by apply TraceFacts.created_reviews_valid.
Qed.

Lemma date_sorts_chronological_witness :
  ∃ asc : list Review.t,
    get_reviews (iso := common_format_only) DATE_ASC
      (run (H := no_conversion)
         (five_reviews (sample_env 1) (sample_env 2) (sample_env 3)
            (sample_env 4) (sample_env 5)
            "Marie Dubois" "John Smith" "Pierre Martin" "Sarah Johnson"
            "Antoine Leroy")
         empty_store)
    = inr (Review.model_dump <$> take 1000 asc)
    ∧ asc ≡ₚ created_reviews (H := no_conversion)
               (five_reviews (sample_env 1) (sample_env 2) (sample_env 3)
                  (sample_env 4) (sample_env 5)
                  "Marie Dubois" "John Smith" "Pierre Martin" "Sarah Johnson"
                  "Antoine Leroy")
               empty_store
    ∧ StronglySorted oldest_first asc.
Proof.
  apply (proj1 (date_sorts_chronological (H := no_conversion)
                  (iso := common_format_only))).
  repeat constructor.
Defined.

(** ** Statistics, on any store *)

Module StatsFacts.
Import Mongo.

Section runtime.
Context {iso : IsoExtensions} {srv : ServerArith}.

Lemma fold_group_step_any coll acc :
  fold_left group_step coll acc
  = mk_group_acc (avg_sum acc + sum_ints (rating_numbers coll))
                 (avg_count acc + Z.of_nat (length (rating_numbers coll)))
                 (sum_one acc + Z.of_nat (length coll))
                 (avg_seen acc ++ rating_numbers coll).
Proof.
  revert acc. induction coll as [|d coll IH]; intros acc.
  - simpl. destruct acc; simpl. rewrite app_nil_r. f_equal; lia.
  - cbn [fold_left]. rewrite IH. unfold group_step, rating_numbers.
    cbn [omap list_omap]. fold (rating_numbers coll).
    destruct (rating_number d) as [[r|f]|]; simpl;
      rewrite <- ?app_assoc; f_equal; lia.
Qed.

End runtime.

End StatsFacts.

(** X7 — On every store the statistics are these: an empty collection
    gives average 0.0 and count 0; otherwise [total_reviews] counts every
    document, and the average is the server's mean of the ratings that are
    numbers, integers and doubles alike, rounded to one decimal (a
    document whose rating is missing or is no number counts in the total
    but not in the average); a collection in which no document has a
    numeric rating makes the handler raise [TypeError]. *)
Theorem stats_of_any_store {srv : ServerArith} (db : store) :
  get_review_stats db
  = match reviews db, rating_numbers (reviews db) with
    | [], _ => inr (ReviewStats.mk 0 0)
    | _ :: _, [] => inl TypeError
    | _ :: _, (_ :: _) as ns =>
        inr (ReviewStats.mk (round1 (server_mean ns))
               (Z.of_nat (length (reviews db))))
    end.
Proof.
  unfold get_review_stats, Mongo.aggregate_group.
  destruct (reviews db) as [|d coll] eqn:Hcoll; [reflexivity|].
  rewrite StatsFacts.fold_group_step_any.
  cbn [take Mongo.avg_sum Mongo.avg_count Mongo.sum_one Mongo.avg_seen
       Mongo.row_average_rating Mongo.row_total_reviews app].
  rewrite !Z.add_0_l.
  destruct (rating_numbers (d :: coll)) as [|r rs] eqn:Hrs; [reflexivity|].
  destruct (Z.eqb_spec (Z.of_nat (length (r :: rs))) 0) as [Hz|_];
    [simpl in Hz; lia|].
  unfold server_mean. by destruct (existsb Mongo.is_double (r :: rs)).
Qed.

(** ** The allowed origins *)

Module ConfigFacts.

#[local] Arguments String.append !_ _ /.

Lemma str_split_nonempty sep s : Config.str_split sep s ≠ [].
Proof.
  destruct s as [|c s]; simpl; [done|].
  destruct (Ascii.eqb c sep); [done|].
  by destruct (Config.str_split sep s).
Qed.

Lemma str_join_cons_char sep c p ps :
  Config.str_join sep (String c p :: ps)
  = String c (Config.str_join sep (p :: ps)).
Proof. by destruct ps. Qed.

Lemma str_join_split sep s :
  Config.str_join sep (Config.str_split sep s) = s.
Proof.
  induction s as [|c s IH]; [done|]. cbn [Config.str_split].
  pose proof (str_split_nonempty sep s) as Hne.
  destruct (Ascii.eqb_spec c sep) as [->|_];
    destruct (Config.str_split sep s) as [|p ps]; try done.
  - change (Config.str_join sep (EmptyString :: p :: ps))
      with (String sep (Config.str_join sep (p :: ps))).
    by rewrite IH.
  - by rewrite str_join_cons_char, IH.
Qed.

Lemma str_split_no_sep sep s o :
  o ∈ Config.str_split sep s → Config.occurs sep o = false.
Proof.
  revert o. induction s as [|c s IH]; intros o; cbn [Config.str_split].
  - by intros ->%list_elem_of_singleton.
  - pose proof (str_split_nonempty sep s) as Hne.
    destruct (Ascii.eqb c sep) eqn:Hc.
    + intros [->|Ho]%elem_of_cons; [done | by apply IH].
    + destruct (Config.str_split sep s) as [|p ps]; [done|].
      intros [->|Ho]%elem_of_cons.
      * cbn [Config.occurs]. rewrite Hc. apply IH. by left.
      * apply IH. by right.
Qed.

Lemma str_split_length sep s :
  length (Config.str_split sep s) = S (Config.count_char sep s).
Proof.
  induction s as [|c s IH]; [done|]. cbn [Config.str_split Config.count_char].
  pose proof (str_split_nonempty sep s) as Hne.
  destruct (Ascii.eqb c sep).
  - simpl. by rewrite IH.
  - destruct (Config.str_split sep s) as [|p ps]; [done|].
    simpl in *. lia.
Qed.

Lemma str_split_clean sep p :
  Config.occurs sep p = false → Config.str_split sep p = [p].
Proof.
  induction p as [|c p IH]; [done|]. cbn [Config.occurs Config.str_split].
  intros [Hc Hp]%orb_false_elim. by rewrite Hc, IH.
Qed.

Lemma str_split_app sep p rest :
  Config.occurs sep p = false →
  Config.str_split sep (p +:+ String sep rest)
  = p :: Config.str_split sep rest.
Proof.
  induction p as [|c p IH].
  - intros _. cbn [String.append Config.str_split].
    by rewrite Ascii.eqb_refl.
  - cbn [Config.occurs]. intros [Hc Hp]%orb_false_elim.
    cbn [String.append Config.str_split]. by rewrite Hc, IH.
Qed.

Lemma str_split_join sep pieces :
  pieces ≠ [] →
  Forall (λ o, Config.occurs sep o = false) pieces →
  Config.str_split sep (Config.str_join sep pieces) = pieces.
Proof.
  induction pieces as [|p ps IH]; [done|]. intros _ Hf.
  apply Forall_cons in Hf as [Hp Hps]. destruct ps as [|q qs].
  - by apply str_split_clean.
  - change (Config.str_join sep (p :: q :: qs))
      with (p +:+ String sep (Config.str_join sep (q :: qs))).
    rewrite str_split_app by done. by rewrite IH.
Qed.

End ConfigFacts.

(** X8 — The origins handed to the CORS middleware are the configured
    value of [CORS_ORIGINS] (["*"] when unset) cut at its commas and
    nothing else: joining them with commas gives the value back, there is
    one more of them than there are commas (so never none), none contains
    a comma, and a value that is the comma-joined text of a list of
    comma-free origins yields exactly that list.  Nothing is trimmed or
    dropped on the way. *)
Theorem allow_origins_are_the_comma_pieces (environ : gmap string string) :
  Config.str_join "," (Config.allow_origins environ)
  = default "*" (environ !! "CORS_ORIGINS")
  ∧ length (Config.allow_origins environ)
    = S (Config.count_char "," (default "*" (environ !! "CORS_ORIGINS")))
  ∧ (∀ origin, origin ∈ Config.allow_origins environ →
               Config.occurs "," origin = false)
  ∧ (∀ pieces, pieces ≠ [] →
               Forall (λ o, Config.occurs "," o = false) pieces →
               default "*" (environ !! "CORS_ORIGINS")
               = Config.str_join "," pieces →
               Config.allow_origins environ = pieces).
Proof.
  unfold Config.allow_origins. split; [|split; [|split]].
  - apply ConfigFacts.str_join_split.
  - apply ConfigFacts.str_split_length.
  - intros origin. apply ConfigFacts.str_split_no_sep.
  - intros pieces Hne Hclean ->. by apply ConfigFacts.str_split_join.
Qed.

(** ** The smoke-test harness *)

Module TesterFacts.

Lemma log_test_counters clock name ok dets self :
  counters_agree self →
  counters_agree (Tester.log_test clock name ok dets self).
Proof.
  unfold counters_agree, Tester.log_test. intros [Hrun Hpassed]. simpl.
  rewrite length_app, filter_app, length_app, Hrun, Hpassed. simpl.
  split; [lia|]. destruct ok.
  - rewrite filter_cons_True by done. simpl. lia.
  - rewrite filter_cons_False by done. simpl. lia.
Qed.

(** What [run_test] leaves behind is one or two calls of [log_test]. *)
Lemma run_test_logs clock name method expected_status check_response net self :
  ∃ ok dets,
    let once := Tester.log_test clock name ok dets self in
    snd (Tester.run_test clock name method expected_status check_response
           net self)
    = (if logged_twice method expected_status check_response net
       then Tester.log_test clock name false
              [Tester.DCaught Tester.BodyNotJson] once
       else once)
    ∧ (logged_twice method expected_status check_response net = true →
       ok = true)
    ∧ (logged_twice method expected_status check_response net = false →
       ok = fst (fst (Tester.run_test clock name method expected_status
                        check_response net self)))
    ∧ (logged_twice method expected_status check_response net = true →
       fst (fst (Tester.run_test clock name method expected_status
                   check_response net self)) = false).
Proof.
  unfold Tester.run_test, logged_twice.
  destruct (String.eqb method "GET" || String.eqb method "POST");
    [|by eexists _, _].
  destruct net as [msg|r]; [by eexists _, _|]. cbn [andb].
  destruct (Tester.status_code r =? expected_status) eqn:Hstatus;
    destruct check_response as [check|];
    destruct (Tester.json_body r) as [data|]; cbn [mbind option_bind];
    try (by eexists _, _).
  destruct (check data) as [[[] msg]|]; by eexists _, _.
Qed.

Lemma run_test_counters clock name method expected_status check_response net
  self :
  counters_agree self →
  counters_agree
    (snd (Tester.run_test clock name method expected_status check_response
            net self)).
Proof.
  intros Hself.
  destruct (run_test_logs clock name method expected_status check_response
              net self) as (ok & dets & -> & _).
  destruct (logged_twice _ _ _ _); by repeat apply log_test_counters.
Qed.

Lemma reachable_counters clock self :
  tester_reachable clock self → counters_agree self.
Proof.
  induction 1.
  - by split.
  - by apply log_test_counters.
  - by apply run_test_counters.
Qed.

Lemma filter_split (l : list Tester.entry) :
  length l
  = (length (filter (λ r, Tester.success r = true) l)
     + length (filter (λ r, Tester.success r = false) l))%nat.
Proof.
  induction l as [|r l IH]; [done|].
  destruct (Tester.success r) eqn:Hr.
  - rewrite filter_cons_True, filter_cons_False by congruence. simpl. lia.
  - rewrite filter_cons_False, filter_cons_True by congruence. simpl. lia.
Qed.

Lemma eq_str_refl s : Tester.eq_str (JStr s) s = true.
Proof. apply String.eqb_refl. Qed.

End TesterFacts.

(** X9 — However a run of the tester calls [log_test] and [run_test], its
    counters describe its list of results: [tests_run] is the number of
    results, [tests_passed] the number of successful ones, so
    [0 ≤ tests_passed ≤ tests_run], their difference is the number of
    failed results [main] prints, and [main] ends with status [0] exactly
    when no logged result failed (and with [1] otherwise). *)
Theorem tester_counters_describe_results
  (clock : Z → string) (self : Tester.t) :
  tester_reachable clock self →
  Tester.tests_run self = Z.of_nat (length (Tester.test_results self))
  ∧ 0 ≤ Tester.tests_passed self ≤ Tester.tests_run self
  ∧ Tester.tests_run self - Tester.tests_passed self
    = Z.of_nat (length (Tester.failed_tests self))
  ∧ (Tester.exit_status self = 0 ↔ Tester.failed_tests self = [])
  ∧ (Tester.exit_status self = 1 ↔ Tester.failed_tests self ≠ []).
Proof.
  intros [Hrun Hpassed]%TesterFacts.reachable_counters.
  pose proof (TesterFacts.filter_split (Tester.test_results self)) as Hsplit.
  unfold Tester.exit_status, Tester.failed_tests in *.
  assert (Tester.tests_run self - Tester.tests_passed self
          = Z.of_nat (length (filter (λ r, Tester.success r = false)
                                (Tester.test_results self)))) as Hdiff by lia.
  split; [done|]. split; [lia|]. split; [done|].
  destruct (filter (λ r, Tester.success r = false) (Tester.test_results self))
    as [|r rs] eqn:Hfailed; simpl in Hdiff.
  - rewrite (proj2 (Z.eqb_eq _ _)) by lia. done.
  - rewrite (proj2 (Z.eqb_neq _ _)) by lia. done.
Qed.

Lemma tester_counters_describe_results_witness :
  tester_reachable sample_clock failed_root_test
  ∧ Tester.tests_run failed_root_test - Tester.tests_passed failed_root_test
    = Z.of_nat (length (Tester.failed_tests failed_root_test)).
Proof.
  assert (tester_reachable sample_clock failed_root_test) as Hreach
    by apply reach_run_test, reach_new.
  split; [exact Hreach|].
  exact (proj1 (proj2 (proj2
           (tester_counters_describe_results sample_clock failed_root_test
              Hreach)))).
Defined.

(** X10 — [run_test] returns [True] with the parsed body exactly when the
    method is GET or POST, a response came back with the expected status
    and a JSON body, and the check, if one was given, returned a true
    first component on that body; in every other case (the call raised,
    another status, no JSON, a check that failed or raised, another
    method) it returns [False] with the empty dict. *)
Theorem run_test_passes_iff
  (clock : Z → string) (name method : string) (expected_status : Z)
  (check_response : option (json → option (bool * Tester.message)))
  (net : Tester.exchange) (self : Tester.t) :
  (∀ data,
     fst (Tester.run_test clock name method expected_status check_response
            net self) = (true, data)
     ↔ (method = "GET" ∨ method = "POST")
       ∧ ∃ r, net = Tester.Responded r
              ∧ Tester.status_code r = expected_status
              ∧ Tester.json_body r = Some data
              ∧ match check_response with
                | None => True
                | Some check => ∃ msg, check data = Some (true, msg)
                end)
  ∧ (fst (fst (Tester.run_test clock name method expected_status
                 check_response net self)) = false →
     snd (fst (Tester.run_test clock name method expected_status
                 check_response net self)) = JObj ∅).
Proof.
  unfold Tester.run_test.
  destruct (String.eqb method "GET" || String.eqb method "POST") eqn:Hm.
  2:{ apply orb_false_elim in Hm as [Hg Hp].
      apply String.eqb_neq in Hg, Hp.
      split; [|done]. intros data. split; [done|].
      by intros [[?|?] _]. }
  assert (method = "GET" ∨ method = "POST") as Hmethod.
  { apply orb_true_iff in Hm as [?%String.eqb_eq|?%String.eqb_eq]; auto. }
  destruct net as [msg|r].
  { split; [|done]. intros data. split; [done|].
    by intros (_ & r & [=] & _). }
  destruct (Tester.status_code r =? expected_status) eqn:Hstatus.
  2:{ apply Z.eqb_neq in Hstatus. simpl.
      split; [|done]. intros data. split; [done|].
      intros (_ & ? & [= <-] & ? & _). done. }
  apply Z.eqb_eq in Hstatus.
  destruct check_response as [check|];
    destruct (Tester.json_body r) as [body|] eqn:Hbody;
    cbn [mbind option_bind andb negb fst snd].
  - destruct (check body) as [[[] msg]|] eqn:Hcheck;
      cbn [andb negb fst snd]; rewrite ?Hbody; (split; [|done]); intros data.
    + split.
      * intros [= <-]. split; [done|]. exists r. eauto 10.
      * intros (_ & ? & [= <-] & _ & Hd & _). congruence.
    + split; [done|].
      intros (_ & ? & [= <-] & _ & Hd & ? & Hc). congruence.
    + split; [done|].
      intros (_ & ? & [= <-] & _ & Hd & ? & Hc). congruence.
  - split; [|done]. intros data. split; [done|].
    intros (_ & ? & [= <-] & _ & Hd & _). congruence.
  - split; [|done]. intros data. split.
    + intros [= <-]. split; [done|]. exists r. eauto.
    + intros (_ & ? & [= <-] & _ & Hd & _). congruence.
  - split; [|done]. intros data. split; [done|].
    intros (_ & ? & [= <-] & _ & Hd & _). congruence.
Qed.

(** X11 — [run_test] only appends to the results, under the name of the
    test, and counts what it appends.  It logs one result, whose verdict
    is the value it returns, except in one case: when the status is the
    expected one, no check was given and the body is not JSON, it logs a
    passed result, then a failed one, and returns [False]. *)
Theorem run_test_logging
  (clock : Z → string) (name method : string) (expected_status : Z)
  (check_response : option (json → option (bool * Tester.message)))
  (net : Tester.exchange) (self : Tester.t) :
  ∃ logged,
    Tester.test_results
      (snd (Tester.run_test clock name method expected_status check_response
              net self))
    = Tester.test_results self ++ logged
    ∧ Forall (λ r, Tester.test r = name) logged
    ∧ Tester.tests_run
        (snd (Tester.run_test clock name method expected_status check_response
                net self))
      = Tester.tests_run self + Z.of_nat (length logged)
    ∧ Tester.success <$> logged
      = (if logged_twice method expected_status check_response net
         then [true; false]
         else [fst (fst (Tester.run_test clock name method expected_status
                           check_response net self))])
    ∧ (logged_twice method expected_status check_response net = true →
       fst (fst (Tester.run_test clock name method expected_status
                   check_response net self)) = false).
Proof.
  destruct (TesterFacts.run_test_logs clock name method expected_status
              check_response net self)
    as (ok & dets & Hsnd & Htwice & Honce & Hret).
  cbv zeta in Hsnd. rewrite Hsnd.
  destruct (logged_twice method expected_status check_response net).
  - rewrite (Htwice eq_refl). eexists [_; _]. unfold Tester.log_test. simpl.
    rewrite <- app_assoc. split; [reflexivity|].
    split; [by repeat constructor|]. split; [lia|]. split; [done|].
    intros _. by apply Hret.
  - rewrite <- (Honce eq_refl). eexists [_]. unfold Tester.log_test. simpl.
    split; [reflexivity|]. split; [by repeat constructor|]. by split; [lia|].
Qed.

(** X12 — The creation test passes against the creation route.  For a
    name of 1 to 100 characters, a rating from 1 to 5 and a comment of at
    most 500 characters, the payload [test_create_review] sends is
    accepted; the review created holds the name and rating sent, and the
    comment sent if it was non-empty, none otherwise (an empty comment is
    not sent); the check of the test accepts the JSON of that review; and
    [run_test], given a 200 response with that body, returns [True] with
    it and logs one passed result. *)
Theorem creation_test_passes `{LaxInt}
  (datetime_json : datetime → string) (clock : Z → string)
  (e : env) (db : store) (name : string) (rating : Z)
  (comment : option string) (label raw : string) (self : Tester.t) :
  (1 ≤ Utf8.len name ≤ 100)%nat →
  1 ≤ rating ≤ 5 →
  (∀ c, comment = Some c → (Utf8.len c ≤ 500)%nat) →
  let review :=
    Review.mk (uuid4 e) name rating
      (if Tester.truthy comment then comment else None) (now e) in
  let created := Tester.CreatedReviewId (JStr (uuid4 e)) in
  fst (post_reviews e (JObj (Tester.review_data name rating comment)) db)
  = inr review
  ∧ Tester.check_create_response name rating comment
      (review_json datetime_json review) = Some (true, created)
  ∧ Tester.run_test clock label "POST" 200
      (Some (Tester.check_create_response name rating comment))
      (Tester.Responded
         (Tester.mk_response 200 (Some (review_json datetime_json review)) raw))
      self
    = ((true, review_json datetime_json review),
       Tester.log_test clock label true
         [Tester.DStatus 200; Tester.DResponse created] self).
Proof.
  intros Hname Hrating Hcomment review created.
  assert (Tester.check_create_response name rating comment
            (review_json datetime_json review) = Some (true, created))
    as Hcheck.
  { unfold Tester.check_create_response, review_json, review, created.
    cbn [Tester.first_missing Tester.contains Review.id Review.name
         Review.rating Review.comment Review.created_at].
    rewrite !bool_decide_eq_true_2
      by (eexists; by simplify_map_eq).
    simplify_map_eq. cbn [mbind option_bind].
    rewrite String.eqb_refl, Z.eqb_refl. cbn [negb].
    destruct comment as [[|c0 c]|]; cbn [Tester.truthy]; [done| |done].
    by rewrite TesterFacts.eq_str_refl. }
  split; [|split; [exact Hcheck|]].
  - rewrite (PayloadFacts.post_reviews_accepts e db _ name rating
              (if Tester.truthy comment then comment else None)); try done.
    + unfold Tester.review_data.
      destruct comment as [[|c0 c]|]; by simplify_map_eq.
    + unfold Tester.review_data.
      destruct comment as [[|c0 c]|]; by simplify_map_eq.
    + unfold Tester.review_data, carries_comment.
      destruct comment as [[|c0 c]|]; cbn [Tester.truthy];
        simplify_map_eq; auto.
    + intros s Hs. destruct (Tester.truthy comment); [auto | done].
  - unfold Tester.run_test. cbn [orb String.eqb Ascii.eqb Bool.eqb andb].
    cbn [Tester.status_code Tester.json_body mbind option_bind].
    rewrite Hcheck. reflexivity.
Qed.

Lemma creation_test_passes_witness :
  (1 ≤ Utf8.len "Awa" ≤ 100)%nat ∧ 1 ≤ 5 ≤ 5
  ∧ fst (post_reviews (H := no_conversion) (sample_env 1)
           (JObj (Tester.review_data "Awa" 5 (Some EmptyString))) empty_store)
    = inr (Review.mk (uuid4 (sample_env 1)) "Awa" 5 None (now (sample_env 1))).
Proof.
  assert ((1 ≤ Utf8.len "Awa" ≤ 100)%nat) as Hname by (simpl; lia).
  assert (1 ≤ 5 ≤ 5) as Hrating by lia.
  assert (∀ c, Some EmptyString = Some c → (Utf8.len c ≤ 500)%nat)
    as Hcomment by (intros c [= <-]; simpl; lia).
  split; [exact Hname|]. split; [exact Hrating|].
  exact (proj1 (creation_test_passes (H := no_conversion)
                  (λ _, "2025-01-01T00:00:00Z") (λ _, "2025-01-01T00:00:00")
                  (sample_env 1) empty_store "Awa" 5 (Some EmptyString)
                  "Create Review (Awa, 5 stars)" EmptyString
                  (Tester.new "http://localhost:8001")
                  Hname Hrating Hcomment)).
Defined.
